(** * ANP4NLG: the Neural Process criterion and the encoders

    A shallow embedding of
      - [src/anp4nlg/criterions/neural_process.py] (the criterion),
      - [src/anp4nlg/models/np/encoder.py] (the canonical encoders),
      - [src/encoder.py] (the legacy encoder),
    with the properties of the specification proved about it.

    Numbers.  Tensor entries and Python floats are modelled by the real
    numbers of the Standard Library: every statement below is about the
    arithmetic expression the code evaluates, not about rounding.  Python
    ints that index or size something are [nat]; the counters of a sample
    are [Z].

    Tensors.  A tensor is its shape together with its entries in row-major
    order, which is how [torch] stores a contiguous tensor and what makes
    [view] a change of shape only. *)

From Stdlib Require Import Reals Lra Lia List ZArith.
From stdpp Require Import gmap strings.
Import ListNotations.

Local Open Scope R_scope.

(** ** Exceptions and fallible computations *)

(** The Python exceptions the modelled code can raise. *)
Inductive error : Type :=
| ShapeError            (* size mismatch in cat, Linear or view *)
| IndexError            (* dimension or index out of range *)
| ValueError            (* rejected argument *)
| ShapeMismatch         (* prediction and ground truth disagree *)
| ConfigurationError    (* hyperparameters rejected by a constructor *)
| NotImplementedError   (* abstract method *)
| ZeroDivisionError.    (* Python [/] with a zero divisor *)

Inductive result (A : Type) : Type :=
| Ok (a : A)
| Err (e : error).
Arguments Ok {A} a.
Arguments Err {A} e.

Definition bind {A B : Type} (m : result A) (k : A -> result B) : result B :=
  match m with
  | Ok a => k a
  | Err e => Err e
  end.

Definition rmap {A B : Type} (f : A -> B) (m : result A) : result B :=
  bind m (fun a => Ok (f a)).

Declare Scope result_scope.
Delimit Scope result_scope with result.
Notation "'let*' x ':=' m 'in' k" := (bind m (fun x => k))
  (at level 10, x name, m at level 200, k at level 200) : result_scope.
Notation "'let*' ' p ':=' m 'in' k" := (bind m (fun p => k))
  (at level 10, p pattern, m at level 200, k at level 200) : result_scope.
Local Open Scope result_scope.

(** ** Tensors *)

Record tensor : Type := Tensor { shape : list nat; data : list R }.

(** Tensors of class indices ([torch.long]). *)
Record itensor : Type := ITensor { ishape : list nat; idata : list nat }.

(** [np.prod] of a shape; also the number of entries of a tensor. *)
Definition numel (s : list nat) : nat := fold_right Nat.mul 1%nat s.

Definition wf (x : tensor) : Prop := length (data x) = numel (shape x).
Definition iwf (x : itensor) : Prop := length (idata x) = numel (ishape x).

(** The size of the last dimension, when there is one. *)
Definition last_dim (s : list nat) : option nat :=
  match rev s with
  | [] => None
  | d :: _ => Some d
  end.

(** [chunk k d l]: the first [k] consecutive blocks of [d] entries of [l]. *)
Fixpoint chunk {A : Type} (k d : nat) (l : list A) : list (list A) :=
  match k with
  | O => []
  | S k' => firstn d l :: chunk k' d (skipn d l)
  end.

(** Sum of a list of numbers the way Python's [sum] and a left-to-right loop
    compute it: starting from 0, adding one entry after the other. *)
Definition py_sum (l : list R) : R := fold_left Rplus l 0.

(** The mathematical sum, used to state results. *)
Fixpoint Rsum (l : list R) : R :=
  match l with
  | [] => 0
  | a :: l' => a + Rsum l'
  end.

(** ** The [torch] operations the encoders use

    These belong to PyTorch, not to the repository; they are modelled from
    their documented behaviour on contiguous tensors. *)

Module nn.

(** [nn.Linear(in_features, out_features)]: [weight j i] is the entry
    [W[j, i]] of its [(out_features, in_features)] matrix and [bias j] the
    entry [b[j]]; the constructor draws both at random, so they are taken
    as given. *)
Record LinearParams : Type := { weight : nat -> nat -> R; bias : nat -> R }.

Record Linear : Type :=
  { in_features : nat; out_features : nat; params : LinearParams }.

Definition Linear_init (in_f out_f : nat) (p : LinearParams) : Linear :=
  {| in_features := in_f; out_features := out_f; params := p |}.

(** [sum_i v[i] * w[i0 + i]] *)
Fixpoint dot (w : nat -> R) (i0 : nat) (v : list R) : R :=
  match v with
  | [] => 0
  | a :: v' => a * w i0 + dot w (S i0) v'
  end.

(** One row through the layer: [v W^T + b]. *)
Definition Linear_row (l : Linear) (v : list R) : list R :=
  map (fun j => dot (weight (params l) j) 0 v + bias (params l) j)
      (seq 0 (out_features l)).

(** The layer acts on the last dimension and keeps the leading ones. *)
Definition Linear_forward (l : Linear) (x : tensor) : result tensor :=
  match last_dim (shape x) with
  | None => Err ShapeError
  | Some d =>
      if decide (d = in_features l) then
        let lead := removelast (shape x) in
        Ok {| shape := lead ++ [out_features l];
              data := concat (map (Linear_row l) (chunk (numel lead) d (data x))) |}
      else Err ShapeError
  end.

(** [nn.ReLU]: entrywise [max(0, .)]. *)
Definition ReLU_forward (x : tensor) : tensor :=
  {| shape := shape x; data := map (Rmax 0) (data x) |}.

(** [torch.cat((x, y), dim=2)].  A tensor without any dimension cannot be
    concatenated.  A tensor of shape [(0,)] is skipped (an old convention of
    [torch.cat]); the first tensor that is not skipped must have a
    dimension 2, else IndexError.  The tensors that are not skipped must
    have the same number of dimensions and agree on every dimension but
    dimension 2. *)
Definition cat_dim2 (x y : tensor) : result tensor :=
  if decide (shape x = [] \/ shape y = []) then Err ShapeError
  else if decide (shape x = [0%nat]) then
    if decide (shape y = [0%nat]) then Ok {| shape := [0%nat]; data := [] |}
    else if decide (2 < length (shape y))%nat then Ok y
    else Err IndexError
  else
    match shape x with
    | a :: b :: dx :: rx =>
        if decide (shape y = [0%nat]) then Ok x
        else
          match shape y with
          | a' :: b' :: dy :: ry =>
              if decide (a = a' /\ b = b' /\ rx = ry) then
                Ok {| shape := a :: b :: (dx + dy)%nat :: rx;
                      data := concat (zip_with (@app R)
                                        (chunk (a * b) (dx * numel rx) (data x))
                                        (chunk (a * b) (dy * numel rx) (data y))) |}
              else Err ShapeError
          | _ => Err ShapeError
          end
    | _ => Err IndexError
    end.

(** [x.squeeze(-1)]: drops the last dimension when it has size 1. *)
Definition squeeze_last (x : tensor) : tensor :=
  match last_dim (shape x) with
  | Some 1%nat => {| shape := removelast (shape x); data := data x |}
  | _ => x
  end.

(** [nn.MultiheadAttention(embed_dim, num_heads, batch_first=True)].  The
    constructor rejects non-positive sizes and asserts
    ["embed_dim must be divisible by num_heads"]: these two rejections are
    the [ConfigurationError] of the specification. *)
Record MultiheadAttention : Type := { embed_dim : nat; num_heads : nat }.

Definition MultiheadAttention_init (e h : nat) : result MultiheadAttention :=
  if decide (e = 0 \/ h = 0)%nat then Err ConfigurationError
  else if decide ((e / h) * h = e)%nat
       then Ok {| embed_dim := e; num_heads := h |}
       else Err ConfigurationError.

(** Self-attention [attn(q, q, q)[0]]: the output has the shape of the
    query, whose last dimension must be [embed_dim]; a query of rank 2 is
    an unbatched sequence.  What the entries are is left to [values]: no
    property below depends on it. *)
Definition MultiheadAttention_forward
    (values : MultiheadAttention -> tensor -> list R)
    (m : MultiheadAttention) (q : tensor) : result tensor :=
  match shape q with
  | [_; e] | [_; _; e] =>
      if decide (e = embed_dim m) then
        Ok {| shape := shape q; data := values m q |}
      else Err ShapeError
  | _ => Err ShapeError
  end.

End nn.

(** ** [util.ReshapeLast] *)

Module util.

(** Modelled from the spec: [util.py], which defines [ReshapeLast], is not
    among the sources.  Section 4.1: given a tensor whose last dimension has
    size [S] and a target shape [T] with [product(T) == S], the result has
    the last dimension replaced by the dimensions of [T], leading dimensions
    and element order preserved; it fails with a ShapeError when
    [product(T) != S]. *)
Definition ReshapeLast_forward (T : list nat) (x : tensor) : result tensor :=
  match last_dim (shape x) with
  | None => Err ShapeError
  | Some s =>
      if decide (numel T = s) then
        Ok {| shape := removelast (shape x) ++ T; data := data x |}
      else Err ShapeError
  end.

End util.

(** The modules the [nn.Sequential] of an encoder is made of. *)
Inductive Layer : Type :=
| LLinear (l : nn.Linear)
| LReLU
| LReshapeLast (T : list nat).

Definition Layer_forward (l : Layer) (x : tensor) : result tensor :=
  match l with
  | LLinear lin => nn.Linear_forward lin x
  | LReLU => Ok (nn.ReLU_forward x)
  | LReshapeLast T => util.ReshapeLast_forward T x
  end.

(** [nn.Sequential] over the list [layers]: the layers in order, each on the output of the
    one before. *)
Fixpoint Sequential_forward (layers : list Layer) (x : tensor) : result tensor :=
  match layers with
  | [] => Ok x
  | l :: ls => let* y := Layer_forward l x in Sequential_forward ls y
  end.

(** [rs_dim : Union[int, tuple]] *)
Inductive dim_arg : Type :=
| DInt (r : nat)
| DTuple (t : list nat).

(** The weights of the three [nn.Linear] layers of an encoder, in the order
    the constructor creates them. *)
Record MLPParams : Type :=
  { fc1 : nn.LinearParams; fc2 : nn.LinearParams; fc3 : nn.LinearParams }.

(** ** [src/anp4nlg/models/np/encoder.py] *)

Module Canonical.

Record Encoder : Type := { x_dim : nat; y_dim : nat; rs_dim : list nat }.

(** [Encoder.__init__]: an integer [rs_dim] is stored as the pair
    [(rs_dim, 1)], a tuple as it is. *)
Definition Encoder_init (x_dim y_dim : nat) (rs_dim : dim_arg) : Encoder :=
  {| x_dim := x_dim;
     y_dim := y_dim;
     rs_dim := match rs_dim with
               | DTuple t => t
               | DInt r => [r; 1%nat]
               end |}.

Definition Encoder_forward (self : Encoder) (x y : tensor) : result tensor :=
  Err NotImplementedError.

Record MLPEncoder : Type :=
  { MLP_super : Encoder; input_to_rs : list Layer }.

(** [MLPEncoder.__init__], for an integer [rs_dim] and for a tuple with an
    entry whose product is below 2^63, where [np.prod] is the exact product
    (of the empty tuple it is the float 1.0, which [nn.Linear] refuses as a
    size). *)
Definition MLPEncoder_init (x_dim y_dim : nat) (rs_dim : dim_arg) (h_dim : nat)
    (w : MLPParams) : MLPEncoder :=
  let super := Encoder_init x_dim y_dim rs_dim in
  let output_shape := Canonical.rs_dim super in
  let output_size := numel output_shape in
  let layers := [ LLinear (nn.Linear_init (x_dim + y_dim) h_dim (fc1 w));
                  LReLU;
                  LLinear (nn.Linear_init h_dim h_dim (fc2 w));
                  LReLU;
                  LLinear (nn.Linear_init h_dim output_size (fc3 w));
                  LReshapeLast output_shape ] in
  {| MLP_super := super; input_to_rs := layers |}.

Definition MLPEncoder_forward (self : MLPEncoder) (x y : tensor) : result tensor :=
  let* input := nn.cat_dim2 x y in
  Sequential_forward (input_to_rs self) input.

Record AttentionEncoder : Type :=
  { Attn_super : Encoder;
    batch_mlp : list Layer;
    attn : nn.MultiheadAttention;
    shaper : list nat }.

(** [self.rs_dim[1]] raises IndexError on a tuple with fewer than two
    entries. *)
Definition AttentionEncoder_init (x_dim y_dim : nat) (rs_dim : dim_arg) (h_dim : nat)
    (w : MLPParams) : result AttentionEncoder :=
  let super := Encoder_init x_dim y_dim rs_dim in
  let output_size := numel (Canonical.rs_dim super) in
  let* n_attn_heads := match nth_error (Canonical.rs_dim super) 1 with
                       | Some h => Ok h
                       | None => Err IndexError
                       end in
  let layers := [ LLinear (nn.Linear_init (x_dim + y_dim) h_dim (fc1 w));
                  LReLU;
                  LLinear (nn.Linear_init h_dim h_dim (fc2 w));
                  LReLU;
                  LLinear (nn.Linear_init h_dim output_size (fc3 w)) ] in
  let* attn := nn.MultiheadAttention_init output_size n_attn_heads in
  Ok {| Attn_super := super;
        batch_mlp := layers;
        attn := attn;
        shaper := Canonical.rs_dim super |}.

Definition AttentionEncoder_forward
    (values : nn.MultiheadAttention -> tensor -> list R)
    (self : AttentionEncoder) (x y : tensor) : result tensor :=
  let* c := nn.cat_dim2 x y in
  let input := nn.squeeze_last c in
  let* m := Sequential_forward (batch_mlp self) input in
  let encoder_input := nn.squeeze_last m in
  let* attn_output := nn.MultiheadAttention_forward values (attn self) encoder_input in
  util.ReshapeLast_forward (shaper self) attn_output.

End Canonical.

(** ** [src/encoder.py], the legacy module *)

Module Legacy.

Record Encoder : Type := { x_dim : nat; y_dim : nat; r_dim : list nat }.

Definition Encoder_init (x_dim y_dim : nat) (r_dim : dim_arg) : Encoder :=
  {| x_dim := x_dim;
     y_dim := y_dim;
     r_dim := match r_dim with
              | DTuple t => t
              | DInt r => [r; 1%nat]
              end |}.

Definition Encoder_forward (self : Encoder) (x y : tensor) : result tensor :=
  Err NotImplementedError.

Record MLPEncoder : Type :=
  { MLP_super : Encoder; input_to_r : list Layer }.

(** [MLPEncoder.__init__], for an integer [r_dim] and for a tuple with an
    entry whose product is below 2^63, where [np.prod] is the exact product
    (of the empty tuple it is the float 1.0, which [nn.Linear] refuses as a
    size). *)
Definition MLPEncoder_init (x_dim y_dim : nat) (r_dim : dim_arg) (h_dim : nat)
    (w : MLPParams) : MLPEncoder :=
  let super := Encoder_init x_dim y_dim r_dim in
  let output_shape := Legacy.r_dim super in
  let output_size := numel output_shape in
  let layers := [ LLinear (nn.Linear_init (x_dim + y_dim) h_dim (fc1 w));
                  LReLU;
                  LLinear (nn.Linear_init h_dim h_dim (fc2 w));
                  LReLU;
                  LLinear (nn.Linear_init h_dim output_size (fc3 w));
                  LReshapeLast output_shape ] in
  {| MLP_super := super; input_to_r := layers |}.

Definition MLPEncoder_forward (self : MLPEncoder) (x y : tensor) : result tensor :=
  let* input := nn.cat_dim2 x y in
  Sequential_forward (input_to_r self) input.

(** The attentive encoder is a constructor only (its body is a TODO): it
    inherits the abstract [forward]. *)
Record AttentiveEncoder : Type := { Attve_super : Encoder }.

Definition AttentiveEncoder_init (x_dim y_dim : nat) (r_dim : dim_arg) : AttentiveEncoder :=
  {| Attve_super := Encoder_init x_dim y_dim r_dim |}.

Definition AttentiveEncoder_forward (self : AttentiveEncoder) (x y : tensor) : result tensor :=
  Encoder_forward (Attve_super self) x y.

End Legacy.

(** Indexing along the point axis, [x[:, p]]: entry [i] of the result along
    dimension 1 is entry [p[i]] of [x].  The indices are meant to be in
    range (a permutation of the points); a tensor without a dimension 1 is
    left as it is. *)
Definition select {A : Type} (p : list nat) (l : list A) (d : A) : list A :=
  map (fun i => nth i l d) p.

Definition permute_points (p : list nat) (x : tensor) : tensor :=
  match shape x with
  | b :: n :: rest =>
      let inner := numel rest in
      {| shape := b :: length p :: rest;
         data := concat (map (fun blk => concat (select p (chunk n inner blk) []))
                             (chunk b (n * inner) (data x))) |}
  | _ => x
  end.

(** ** Tensor reductions and [torch.distributions.Categorical] *)

(** Entrywise sum of rows of width [inner], accumulated from zero. *)
Definition sum_rows (inner : nat) (rows : list (list R)) : list R :=
  fold_left (zip_with Rplus) rows (repeat 0 inner).

(** [x.sum(dim=k)]: dimension [k] is summed away; IndexError when the tensor
    has no dimension [k]. *)
Definition tensor_sum (dim : nat) (x : tensor) : result tensor :=
  if decide (dim < length (shape x))%nat then
    let outer := numel (firstn dim (shape x)) in
    let n := nth dim (shape x) 0%nat in
    let inner := numel (skipn (S dim) (shape x)) in
    Ok {| shape := firstn dim (shape x) ++ skipn (S dim) (shape x);
          data := concat (map (fun blk => sum_rows inner (chunk n inner blk))
                              (chunk outer (n * inner) (data x))) |}
  else Err IndexError.

(** [x.mean()]: the sum of all entries over their number (a scalar).  Of a
    tensor without entries [torch] returns NaN, which is no real number:
    what is proved below about a mean is proved of a tensor with entries. *)
Definition tensor_mean (x : tensor) : R :=
  py_sum (data x) / INR (numel (shape x)).

Definition logsumexp (row : list R) : R := ln (py_sum (map exp row)).

(** Broadcasting of two shapes, both given from the last dimension to the
    first: two sizes go together when they are equal or one of them is 1. *)
Fixpoint broadcast_rev (s t : list nat) : option (list nat) :=
  match s, t with
  | [], _ => Some t
  | _, [] => Some s
  | a :: s', c :: t' =>
      match broadcast_rev s' t' with
      | None => None
      | Some r =>
          if decide (a = c) then Some (a :: r)
          else if decide (a = 1%nat) then Some (c :: r)
          else if decide (c = 1%nat) then Some (a :: r)
          else None
      end
  end.

Definition broadcast_shapes (s t : list nat) : option (list nat) :=
  match broadcast_rev (rev s) (rev t) with
  | Some r => Some (rev r)
  | None => None
  end.

(** Where a tensor of shape [s] holds the entry that its broadcast to shape
    [r] shows at row-major position [k] (both shapes from the last dimension
    to the first): along a dimension of size 1 the one entry is repeated. *)
Fixpoint broadcast_index_rev (s r : list nat) (k : nat) : nat :=
  match s, r with
  | a :: s', c :: r' =>
      ((if decide (a = 1%nat) then 0 else k mod c)
       + a * broadcast_index_rev s' r' (k / c))%nat
  | _, _ => 0%nat
  end.

Definition broadcast_index (s r : list nat) (k : nat) : nat :=
  broadcast_index_rev (rev s) (rev r) k.

(** [Categorical(logits=l).log_prob(value)].  The constructor wants logits
    of rank 1 at least and its argument check reshapes them, which fails on a
    tensor without entries.  [log_prob] first validates [value]: it must be
    broadcastable with the batch shape (else the failure the specification
    calls ShapeMismatch) and every class must be one of the [v] classes
    (else ValueError).  Then logits and value are broadcast together, the
    logits are normalised along the last dimension, [l - logsumexp(l)], and
    the entry of each row at its class is read off. *)
Definition Categorical_log_prob (logits : tensor) (value : itensor) : result tensor :=
  match last_dim (shape logits) with
  | None => Err ValueError
  | Some v =>
      if decide (numel (shape logits) = 0%nat) then Err ShapeError
      else
        let batch_shape := removelast (shape logits) in
        match broadcast_shapes (ishape value) batch_shape with
        | None => Err ShapeMismatch
        | Some s =>
            if forallb (fun c => c <? v)%nat (idata value) then
              let rows := chunk (numel batch_shape) v (data logits) in
              Ok {| shape := s;
                    data := map (fun k =>
                                   let row := nth (broadcast_index batch_shape s k) rows [] in
                                   let c := nth (broadcast_index (ishape value) s k)
                                                (idata value) 0%nat in
                                   nth c row 0 - logsumexp row)
                                (seq 0 (numel s)) |}
            else Err ValueError
        end
  end.

(** ** [src/anp4nlg/criterions/neural_process.py] *)

(** The sample contract: [sample['net_input']['src_tokens']],
    [sample['target']], [sample['ntokens']], [sample['nsentences']]. *)
Record NetInput : Type := { src_tokens : itensor }.
Record Sample : Type :=
  { net_input : NetInput; target : itensor; ntokens : Z; nsentences : Z }.

(** A call [metrics.log_scalar(key, value, weight, round=digits)]. *)
Record LogScalar : Type :=
  { key : string; value : R; weight : R; round : nat }.

(** Python's [a / b] on numbers: a zero divisor raises ZeroDivisionError.
    (When an operand is a tensor, [torch] gives inf or NaN instead of
    raising; neither is a real number, so there too the model has no value.
    What is proved below of a division is proved of a non-zero divisor, or
    of operands that are the Python integer 0.) *)
Definition py_div (a b : R) : result R :=
  if Req_dec_T b 0 then Err ZeroDivisionError else Ok (a / b).

(** [log.get(k, 0)] *)
Definition get (k : string) (log : gmap string R) : R := default 0 (log !! k).

Section NeuralProcessCriterion.

(** The latent distributions are opaque objects of [torch.distributions];
    [kl_divergence] is the library's, which raises NotImplementedError on a
    pair of families it has no formula for. *)
Variable Distribution : Type.
Variable kl_divergence : Distribution -> Distribution -> result tensor.

(** [model(src_tokens) -> (p_y_pred, r, q_context, q_target)], where
    [q_target] may be [None]. *)
Definition Model : Type :=
  itensor -> tensor * tensor * Distribution * option Distribution.

Definition _compute_loss (p_y_pred : tensor) (y_target : itensor)
    (q_target q_context : Distribution) : result (R * R) :=
  let* lp := Categorical_log_prob p_y_pred y_target in
  let* lp_sum := tensor_sum 1 lp in
  let log_likelihood := tensor_mean lp_sum in
  let* k := kl_divergence q_target q_context in
  let* k_sum := tensor_sum 1 k in
  let kl := tensor_mean k_sum in
  Ok (log_likelihood, kl).

Definition forward (model : Model) (sample : Sample) (reduce : bool)
    : result (R * Z * gmap string R) :=
  let sample_size := nsentences sample in
  let src_tokens := src_tokens (net_input sample) in
  let y_target := target sample in
  let '(p_y_pred, _, q_context, q_target) := model src_tokens in
  let q_target := match q_target with
                  | None => q_context
                  | Some q => q
                  end in
  let* '(ll, kl) := _compute_loss p_y_pred y_target q_target q_context in
  let loss := - ll + kl in
  let logging_output : gmap string R :=
    <["sample_size" := IZR sample_size]>
      (<["nsentences" := IZR (nsentences sample)]>
         (<["ntokens" := IZR (ntokens sample)]>
            (<["kl" := kl]> (<["ll" := - ll]> (<["loss" := loss]> ∅))))) in
  Ok (loss, sample_size, logging_output).

End NeuralProcessCriterion.

(** [reduce_metrics]: the calls made to [metrics.log_scalar], in order.  With
    a zero [sample_size] the first division raises and nothing is logged. *)
Definition reduce_metrics (logging_outputs : list (gmap string R)) : result (list LogScalar) :=
  let loss_sum := py_sum (map (get "loss") logging_outputs) in
  let ll_sum := py_sum (map (get "ll") logging_outputs) in
  let kl_sum := py_sum (map (get "kl") logging_outputs) in
  let sample_size := py_sum (map (get "sample_size") logging_outputs) in
  let* l0 := py_div loss_sum sample_size in
  let* l1 := py_div l0 (ln 2) in
  let c1 := {| key := "loss"; value := l1; weight := sample_size; round := 3 |} in
  let* a0 := py_div ll_sum sample_size in
  let* a1 := py_div a0 (ln 2) in
  let c2 := {| key := "ll"; value := a1; weight := sample_size; round := 3 |} in
  let* k0 := py_div kl_sum sample_size in
  let* k1 := py_div k0 (ln 2) in
  let c3 := {| key := "kl"; value := k1; weight := sample_size; round := 3 |} in
  Ok [c1; c2; c3].

(** * What the specification says, in the terms of the model *)

(** Row-major position of the entry at multi-index [idx] in a tensor of
    shape [s]. *)
Definition offset (s idx : list nat) : nat :=
  fold_left (fun acc (id : nat * nat) => (acc * snd id + fst id)%nat) (combine idx s) 0%nat.

Definition entry (x : tensor) (idx : list nat) : R := nth (offset (shape x) idx) (data x) 0.
Definition ientry (y : itensor) (idx : list nat) : nat :=
  nth (offset (ishape y) idx) (idata y) 0%nat.

(** [bigsum n f] is [f 0 + ... + f (n-1)]. *)
Definition bigsum (n : nat) (f : nat -> R) : R := Rsum (map f (seq 0 n)).

(** The KL term as the specification words it: the entries [K[i, j]] of the
    divergence summed over the latent axis [j], averaged over the batch
    axis [i]. *)
Definition kl_spec (K : tensor) (b d : nat) : R :=
  bigsum b (fun i => bigsum d (fun j => entry K [i; j])) / INR b.

(** The log-likelihood as the specification words it: the log-probability
    of class [y[i, t]] under the categorical distribution with logits
    [p[i, t, :]], summed over the targets [t], averaged over the batch
    axis [i]. *)
Definition log_prob_spec (p : tensor) (y : itensor) (v i t : nat) : R :=
  entry p [i; t; ientry y [i; t]] - ln (bigsum v (fun c => exp (entry p [i; t; c]))).

Definition ll_spec (p : tensor) (y : itensor) (b n v : nat) : R :=
  bigsum b (fun i => bigsum n (fun t => log_prob_spec p y v i t)) / INR b.

(** Broadcasting along one axis: the common size of two sizes of which one
    may be 1, and the position in a tensor of size [d] of entry [i] of its
    broadcast. *)
Definition bsize (d d' : nat) : nat := if decide (d = 1%nat) then d' else d.
Definition bcast (d i : nat) : nat := if decide (d = 1%nat) then 0%nat else i.

(** The sum of field [k] over the records, a record without the field
    counting for zero. *)
Definition total (k : string) (logs : list (gmap string R)) : R :=
  Rsum (map (fun log : gmap string R =>
               match log !! k with
               | Some v => v
               | None => 0
               end) logs).

(** What the network of an MLP encoder does to one point [(x_i, y_i)]. *)
Definition mlp_point (x_dim y_dim h_dim out : nat) (w : MLPParams) (v : list R) : list R :=
  nn.Linear_row (nn.Linear_init h_dim out (fc3 w))
    (map (Rmax 0)
       (nn.Linear_row (nn.Linear_init h_dim h_dim (fc2 w))
          (map (Rmax 0)
             (nn.Linear_row (nn.Linear_init (x_dim + y_dim) h_dim (fc1 w)) v)))).

(** The positions, among [b] groups of [n] rows, that [x[:, p]] reads. *)
Fixpoint point_index (p : list nat) (b n : nat) : list nat :=
  match b with
  | O => []
  | S b' => p ++ map (fun k => (n + k)%nat) (point_index p b' n)
  end.

(** * A concrete family and concrete inputs *)

Definition zeros (s : list nat) : tensor :=
  {| shape := s; data := repeat 0 (numel s) |}.

(** [torch.distributions.Normal(loc, scale)] and the formula [torch]
    registers for a pair of them; only parameters of one common shape are
    modelled. *)
Record Normal : Type := { loc : tensor; scale : tensor }.

Definition kl_entry (p_loc p_scale q_loc q_scale : R) : R :=
  let var_ratio := (p_scale / q_scale) ^ 2 in
  let t1 := ((p_loc - q_loc) / q_scale) ^ 2 in
  (1 / 2) * (var_ratio + t1 - 1 - ln var_ratio).

Definition kl_normal_normal (p q : Normal) : result tensor :=
  if decide (shape (scale p) = shape (loc p)
             /\ shape (loc q) = shape (loc p)
             /\ shape (scale q) = shape (loc p)) then
    Ok {| shape := shape (loc p);
          data := zip_with (fun (a c : R * R) => kl_entry (fst a) (snd a) (fst c) (snd c))
                    (combine (data (loc p)) (data (scale p)))
                    (combine (data (loc q)) (data (scale q))) |}
  else Err ShapeError.

Definition q_context0 : Normal :=
  {| loc := {| shape := [1; 2]%nat; data := [0; 0] |};
     scale := {| shape := [1; 2]%nat; data := [1; 1] |} |}.

Definition q_target0 : Normal :=
  {| loc := {| shape := [1; 2]%nat; data := [1; 0] |};
     scale := {| shape := [1; 2]%nat; data := [1; 2] |} |}.

Definition K0 : tensor :=
  {| shape := [1; 2]%nat; data := [kl_entry 1 1 0 1; kl_entry 0 2 0 1] |}.

(** One sequence of two targets over two classes. *)
Definition p_y_pred0 : tensor := {| shape := [1; 2; 2]%nat; data := [0; 1; 2; 0] |}.
Definition y_target0 : itensor := {| ishape := [1; 2]%nat; idata := [0; 1]%nat |}.


Definition sample0 : Sample :=
  {| net_input := {| src_tokens := {| ishape := [1; 2]%nat; idata := [5; 7]%nat |} |};
     target := y_target0;
     ntokens := 2;
     nsentences := 1 |}.

Definition model0 : Model Normal :=
  fun _ => (p_y_pred0, zeros [1; 2]%nat, q_context0, Some q_target0).

Definition model_absent : Model Normal :=
  fun _ => (p_y_pred0, zeros [1; 2]%nat, q_context0, None).

Definition model_explicit : Model Normal :=
  fun _ => (p_y_pred0, zeros [1; 2]%nat, q_context0, Some q_context0).

Definition zero_linear : nn.LinearParams :=
  {| nn.weight := fun _ _ => 0; nn.bias := fun _ => 0 |}.

Definition zero_params : MLPParams :=
  {| fc1 := zero_linear; fc2 := zero_linear; fc3 := zero_linear |}.

Definition ones_linear : nn.LinearParams :=
  {| nn.weight := fun _ _ => 1; nn.bias := fun _ => 0 |}.

Definition ones_params : MLPParams :=
  {| fc1 := ones_linear; fc2 := ones_linear; fc3 := ones_linear |}.

(** Two workers; the second record has no ["ll"] and no ["kl"]. *)
Definition logs0 : list (gmap string R) :=
  [ <["sample_size" := 2]> (<["kl" := 1]> (<["ll" := 3]> (<["loss" := 4]> ∅)));
    <["sample_size" := 3]> (<["loss" := 6]> ∅) ].

(** * Notions used by the further properties *)

(** How two weighted scalars combine into one: the weights add up and the
    value is the weighted mean. *)
Definition merge_scalar (a b : LogScalar) : LogScalar :=
  {| key := key a;
     value := (weight a * value a + weight b * value b) / (weight a + weight b);
     weight := weight a + weight b;
     round := round a |}.

(** A normal distribution over a batch of [b] latents of dimension [d], with
    positive standard deviations (what [torch] calls a valid [scale]). *)
Definition normal_ok (q : Normal) (b d : nat) : Prop :=
  shape (loc q) = [b; d] /\ shape (scale q) = [b; d]
  /\ wf (loc q) /\ wf (scale q)
  /\ Forall (fun s => 0 < s) (data (scale q)).

(** Further inputs: a second output [r] of another shape, three targets for
    two predictions, a class index beyond the two classes, and normal
    parameters without a batch axis. *)
Definition model0_other_r : Model Normal :=
  fun _ => (p_y_pred0, zeros [3]%nat, q_context0, Some q_target0).

Definition sample_three_targets : Sample :=
  {| net_input := {| src_tokens := {| ishape := [1; 2]%nat; idata := [5; 7]%nat |} |};
     target := {| ishape := [1; 3]%nat; idata := [0; 1; 0]%nat |};
     ntokens := 3;
     nsentences := 1 |}.

Definition y_target_beyond : itensor := {| ishape := [1; 2]%nat; idata := [0; 2]%nat |}.

Definition q_flat : Normal :=
  {| loc := {| shape := [2]%nat; data := [0; 0] |};
     scale := {| shape := [2]%nat; data := [1; 1] |} |}.

(** * Properties *)

(** ** Facts about [chunk], [numel] and sums *)

Section ListFacts.
Context {A : Type}.

Lemma chunk_length (k d : nat) (l : list A) : length (chunk k d l) = k.
Proof. revert l; induction k as [|k IH]; intros l; simpl; [reflexivity|]. now rewrite IH. Qed.

Lemma chunk_rows_length (k d : nat) (l : list A) :
  length l = (k * d)%nat -> Forall (fun r => length r = d) (chunk k d l).
Proof.
  revert l; induction k as [|k IH]; intros l Hl; simpl; constructor.
  - rewrite length_firstn. lia.
  - apply IH. rewrite length_skipn. lia.
Qed.

Lemma concat_chunk (k d : nat) (l : list A) :
  length l = (k * d)%nat -> concat (chunk k d l) = l.
Proof.
  revert l; induction k as [|k IH]; intros l Hl; simpl.
  - destruct l; [reflexivity|discriminate].
  - rewrite IH by (rewrite length_skipn; lia). apply firstn_skipn.
Qed.

Lemma chunk_concat (k d : nat) (ls : list (list A)) :
  length ls = k -> Forall (fun r => length r = d) ls -> chunk k d (concat ls) = ls.
Proof.
  revert ls; induction k as [|k IH]; intros ls Hk Hall.
  - destruct ls; [reflexivity|discriminate].
  - destruct ls as [|r ls]; [discriminate|]. inversion Hall as [|? ? Hr Hall']; subst.
    simpl. rewrite firstn_app, Nat.sub_diag, firstn_all. simpl. rewrite app_nil_r.
    rewrite skipn_app, Nat.sub_diag, skipn_all. simpl.
    f_equal. apply IH; [simpl in Hk; lia|assumption].
Qed.

Lemma concat_length_uniform (d : nat) (ls : list (list A)) :
  Forall (fun r => length r = d) ls -> length (concat ls) = (length ls * d)%nat.
Proof.
  induction 1 as [|r ls Hr _ IH]; simpl; [reflexivity|].
  rewrite length_app, IH, Hr. reflexivity.
Qed.

(** Chunking into [k*n] rows is chunking into [k] groups of [n] rows. *)
Lemma chunk_groups (k n d : nat) (l : list A) :
  length l = (k * (n * d))%nat ->
  chunk (k * n) d l = concat (map (chunk n d) (chunk k (n * d) l)).
Proof.
  intros Hl.
  rewrite <- (concat_chunk k (n * d) l Hl) at 1.
  pose proof (chunk_rows_length k (n * d) l Hl) as Hall.
  pose proof (chunk_length k (n * d) l) as Hlen.
  revert Hall Hlen. generalize (chunk k (n * d) l). clear l Hl.
  induction k as [|k IH]; intros g Hall Hlen.
  - destruct g; [reflexivity|discriminate].
  - destruct g as [|b g]; [discriminate|]. inversion Hall as [|? ? Hb Hall']; subst.
    simpl concat. simpl map.
    replace (S k * n)%nat with (n + k * n)%nat by lia.
    assert (Hsplit : forall (m j : nat) (u v : list A),
               length u = (m * d)%nat -> chunk (m + j) d (u ++ v) = chunk m d u ++ chunk j d v).
    { clear. induction m as [|m IHm]; intros j u v Hu; simpl.
      - destruct u; [reflexivity|discriminate].
      - rewrite firstn_app. replace (d - length u)%nat with 0%nat by lia.
        rewrite firstn_O, app_nil_r. f_equal.
        rewrite skipn_app. replace (d - length u)%nat with 0%nat by lia.
        simpl. apply IHm. rewrite length_skipn. lia. }
    rewrite Hsplit by assumption. f_equal. apply IH; [assumption|simpl in Hlen; lia].
Qed.
End ListFacts.

Lemma py_sum_from (l : list R) (a : R) : fold_left Rplus l a = a + Rsum l.
Proof. revert a; induction l as [|x l IH]; intros a; simpl; [lra|]. rewrite IH. lra. Qed.

Lemma py_sum_Rsum (l : list R) : py_sum l = Rsum l.
Proof. unfold py_sum. rewrite py_sum_from. lra. Qed.

(** ** The criterion: [forward] *)

Section ForwardFacts.
Variable Distribution : Type.
Variable kl_divergence : Distribution -> Distribution -> result tensor.

Local Abbreviation np_forward := (forward Distribution kl_divergence).
Local Abbreviation np_compute_loss := (_compute_loss Distribution kl_divergence).

(** C1.  Whenever the two terms [(ll, kl)] are computed for the model's
    output (with [q_context] standing in for an absent [q_target]), [forward]
    returns the triple [(-ll + kl, nsentences, record)], and the record maps
    ["loss"] to that loss, ["ll"] to [-ll], ["kl"] to [kl], and ["ntokens"],
    ["nsentences"], ["sample_size"] to the sample's counters; it has no other
    entry. *)
Theorem forward_loss_and_record
    (model : Model Distribution) (sample : Sample) (reduce : bool)
    (p r : tensor) (qc : Distribution) (qt : option Distribution) (ll kl : R) :
  model (src_tokens (net_input sample)) = (p, r, qc, qt) ->
  np_compute_loss p (target sample) (default qc qt) qc = Ok (ll, kl) ->
  exists record : gmap string R,
    np_forward model sample reduce = Ok (- ll + kl, nsentences sample, record)
    /\ record !! "loss" = Some (- ll + kl)
    /\ record !! "ll" = Some (- ll)
    /\ record !! "kl" = Some kl
    /\ record !! "ntokens" = Some (IZR (ntokens sample))
    /\ record !! "nsentences" = Some (IZR (nsentences sample))
    /\ record !! "sample_size" = Some (IZR (nsentences sample))
    /\ dom record
       = ({["loss"; "ll"; "kl"; "ntokens"; "nsentences"; "sample_size"]} : gset string).
Proof.
  intros Hmodel Hloss. unfold forward. rewrite Hmodel.
  replace (match qt with None => qc | Some q => q end) with (default qc qt)
    by (destruct qt; reflexivity).
  rewrite Hloss. simpl. eexists. split; [reflexivity|].
  repeat split; try (by simplify_map_eq).
Qed.

(** C4.  A model that returns [None] for [q_target] and a model that returns
    [q_context] there, with the same other outputs, give the same result, be
    it a triple or an exception. *)
Theorem forward_absent_target
    (model model' : Model Distribution) (sample : Sample) (reduce : bool)
    (p r : tensor) (qc : Distribution) :
  model (src_tokens (net_input sample)) = (p, r, qc, None) ->
  model' (src_tokens (net_input sample)) = (p, r, qc, Some qc) ->
  np_forward model sample reduce = np_forward model' sample reduce.
Proof.
  intros H H'. unfold forward. rewrite H, H'. reflexivity.
Qed.

End ForwardFacts.

(** ** The criterion: [reduce_metrics] *)

Lemma py_sum_get_total (k : string) (logs : list (gmap string R)) :
  py_sum (map (get k) logs) = total k logs.
Proof.
  rewrite py_sum_Rsum. reflexivity.
Qed.

Lemma ln2_neq_0 : ln 2 <> 0.
Proof. pose proof ln_lt_2. lra. Qed.

Lemma py_div_ok (a b : R) : b <> 0 -> py_div a b = Ok (a / b).
Proof. intros Hb. unfold py_div. destruct (Req_dec_T b 0); [contradiction|reflexivity]. Qed.

Lemma total_positive_nonempty (k : string) (logs : list (gmap string R)) :
  0 < total k logs -> logs <> [].
Proof. intros H ->. unfold total in H. simpl in H. lra. Qed.

(** C5.  With a positive total [sample_size] (which the records of an empty
    sequence cannot have), [reduce_metrics] logs exactly three scalars, in
    the order ["loss"], ["ll"], ["kl"]: each is the sum of its field over
    the records, divided by the total [sample_size] and then by [ln 2],
    with the total [sample_size] as weight and [round=3]. *)
Theorem reduce_metrics_logs (logs : list (gmap string R)) :
  0 < total "sample_size" logs ->
  reduce_metrics logs
  = Ok [ {| key := "loss";
            value := total "loss" logs / total "sample_size" logs / ln 2;
            weight := total "sample_size" logs; round := 3 |};
         {| key := "ll";
            value := total "ll" logs / total "sample_size" logs / ln 2;
            weight := total "sample_size" logs; round := 3 |};
         {| key := "kl";
            value := total "kl" logs / total "sample_size" logs / ln 2;
            weight := total "sample_size" logs; round := 3 |} ].
Proof.
  intros Hpos. unfold reduce_metrics.
  rewrite !py_sum_get_total.
  assert (Hne : total "sample_size" logs <> 0) by lra.
  rewrite !(py_div_ok _ _ Hne). cbn [bind].
  rewrite !(py_div_ok _ _ ln2_neq_0). reflexivity.
Qed.

(** ** The encoders: construction *)

Lemma MultiheadAttention_init_product (p h : nat) :
  (0 < p)%nat -> (0 < h)%nat ->
  nn.MultiheadAttention_init (p * h) h
  = Ok {| nn.embed_dim := (p * h)%nat; nn.num_heads := h |}.
Proof.
  intros Hp Hh. unfold nn.MultiheadAttention_init.
  destruct (decide _) as [[H|H]|_]; [nia|lia|].
  rewrite Nat.div_mul by lia.
  destruct (decide _); [reflexivity|contradiction].
Qed.

(** C7 as stated fails: 2 does not divide 5, and the encoder with
    [rs_dim = (5, 2)] is constructed all the same. *)
Lemma AttentionEncoder_init_not_divisible :
  ~ (Canonical.AttentionEncoder_init 2 1 (DTuple [5; 2]%nat) 4 zero_params
       = Err ConfigurationError
     <-> (5 mod 2 <> 0)%nat).
Proof.
  intros [_ H]. assert (Hmod : (5 mod 2 <> 0)%nat) by (vm_compute; discriminate).
  specialize (H Hmod). vm_compute in H. discriminate.
Qed.

(** C9.  The legacy and the canonical MLP encoder, built from the same
    hyperparameters and the same layer weights, return the same result on
    every pair of inputs. *)
Theorem legacy_canonical_MLPEncoder
    (x_dim y_dim : nat) (rs_dim : dim_arg) (h_dim : nat) (w : MLPParams) (x y : tensor) :
  Legacy.MLPEncoder_forward (Legacy.MLPEncoder_init x_dim y_dim rs_dim h_dim w) x y
  = Canonical.MLPEncoder_forward (Canonical.MLPEncoder_init x_dim y_dim rs_dim h_dim w) x y.
Proof. reflexivity. Qed.

(** ** The encoders: [forward] *)

Lemma last_dim_snoc (s : list nat) (d : nat) : last_dim (s ++ [d]) = Some d.
Proof. unfold last_dim. rewrite rev_unit. reflexivity. Qed.

Lemma Linear_forward_snoc (l : nn.Linear) (lead : list nat) (X : list R) :
  nn.Linear_forward l {| shape := lead ++ [nn.in_features l]; data := X |}
  = Ok {| shape := lead ++ [nn.out_features l];
          data := concat (map (nn.Linear_row l)
                              (chunk (numel lead) (nn.in_features l) X)) |}.
Proof.
  unfold nn.Linear_forward. cbn [shape data]. rewrite last_dim_snoc.
  destruct (decide _); [|contradiction]. rewrite removelast_last. reflexivity.
Qed.

Lemma ReshapeLast_forward_snoc (T lead : list nat) (X : list R) :
  util.ReshapeLast_forward T {| shape := lead ++ [numel T]; data := X |}
  = Ok {| shape := lead ++ T; data := X |}.
Proof.
  unfold util.ReshapeLast_forward. cbn [shape data]. rewrite last_dim_snoc.
  destruct (decide _); [|contradiction]. rewrite removelast_last. reflexivity.
Qed.

Lemma Linear_row_length (l : nn.Linear) (v : list R) :
  length (nn.Linear_row l v) = nn.out_features l.
Proof. unfold nn.Linear_row. now rewrite length_map, length_seq. Qed.

Lemma cat_dim2_rank3 (x y : tensor) (b n dx dy : nat) :
  shape x = [b; n; dx] -> shape y = [b; n; dy] ->
  nn.cat_dim2 x y
  = Ok {| shape := [b; n] ++ [(dx + dy)%nat];
          data := concat (zip_with (@app R) (chunk (b * n) dx (data x))
                                            (chunk (b * n) dy (data y))) |}.
Proof.
  intros Hx Hy. unfold nn.cat_dim2. rewrite Hx, Hy.
  destruct (decide _) as [[H|H]|_]; [discriminate..|].
  destruct (decide _) as [H|_]; [discriminate|].
  destruct (decide _) as [H|_]; [discriminate|].
  destruct (decide _) as [_|H]; [|exfalso; apply H; auto].
  cbn [numel fold_right]. now rewrite !Nat.mul_1_r.
Qed.

Lemma numel_pair (b n : nat) : numel [b; n] = (b * n)%nat.
Proof. cbn. lia. Qed.

Lemma map_concat_rows {A B : Type} (f : A -> B) (ls : list (list A)) :
  map f (concat ls) = concat (map (map f) ls).
Proof. apply concat_map. Qed.

Lemma zip_app_rows {A : Type} (d d' : nat) (u v : list (list A)) :
  Forall (fun r => length r = d) u -> Forall (fun r => length r = d') v ->
  Forall (fun r => length r = (d + d')%nat) (zip_with (@app A) u v).
Proof.
  intros Hu; revert v; induction Hu as [|a u Ha _ IH]; intros v Hv; simpl; [constructor|].
  destruct Hv as [|c v Hc Hv]; constructor; [|now apply IH].
  rewrite length_app. lia.
Qed.

Lemma zip_with_length_same {A B C : Type} (f : A -> B -> C) (u : list A) (v : list B) :
  length u = length v -> length (zip_with f u v) = length u.
Proof.
  revert v; induction u as [|a u IH]; intros [|c v] H; simpl in *; try lia.
  rewrite IH; lia.
Qed.

Lemma Sequential_forward_app (ls ls' : list Layer) (x : tensor) :
  Sequential_forward (ls ++ ls') x
  = let* y := Sequential_forward ls x in Sequential_forward ls' y.
Proof.
  revert x; induction ls as [|l ls IH]; intros x; simpl; [reflexivity|].
  destruct (Layer_forward l x); simpl; [apply IH|reflexivity].
Qed.

(** The three linear layers with their two ReLUs, on [b * n] points of
    [in_f] features each. *)
Lemma linear_stack_forward (in_f h_dim out : nat) (w : MLPParams)
    (lead : list nat) (pts : list (list R)) :
  Forall (fun r => length r = in_f) pts -> length pts = numel lead ->
  Sequential_forward
    [ LLinear (nn.Linear_init in_f h_dim (fc1 w)); LReLU;
      LLinear (nn.Linear_init h_dim h_dim (fc2 w)); LReLU;
      LLinear (nn.Linear_init h_dim out (fc3 w)) ]
    {| shape := lead ++ [in_f]; data := concat pts |}
  = Ok {| shape := lead ++ [out];
          data := concat (map (fun v =>
                    nn.Linear_row (nn.Linear_init h_dim out (fc3 w))
                      (map (Rmax 0)
                         (nn.Linear_row (nn.Linear_init h_dim h_dim (fc2 w))
                            (map (Rmax 0)
                               (nn.Linear_row (nn.Linear_init in_f h_dim (fc1 w)) v)))))
                    pts) |}.
Proof.
  intros Hrows Hlen.
  cbn [Sequential_forward Layer_forward].
  pose (l1 := nn.Linear_init in_f h_dim (fc1 w)).
  pose (l2 := nn.Linear_init h_dim h_dim (fc2 w)).
  pose (l3 := nn.Linear_init h_dim out (fc3 w)).
  change (nn.Linear_init in_f h_dim (fc1 w)) with l1.
  change (nn.Linear_init h_dim h_dim (fc2 w)) with l2.
  change (nn.Linear_init h_dim out (fc3 w)) with l3.
  change in_f with (nn.in_features l1) at 1.
  rewrite Linear_forward_snoc. cbn [bind]. unfold nn.ReLU_forward. cbn [shape data].
  rewrite chunk_concat; [|assumption..].
  change (nn.out_features l1) with (nn.in_features l2).
  rewrite map_concat_rows, Linear_forward_snoc. cbn [bind]. unfold nn.ReLU_forward. cbn [shape data].
  rewrite chunk_concat.
  2:{ rewrite !length_map. assumption. }
  2:{ rewrite !Forall_map. apply Forall_forall. intros r _.
      rewrite length_map. apply Linear_row_length. }
  change (nn.out_features l2) with (nn.in_features l3).
  rewrite map_concat_rows, Linear_forward_snoc. cbn [bind shape data].
  rewrite chunk_concat.
  2:{ rewrite !length_map. assumption. }
  2:{ rewrite !Forall_map. apply Forall_forall. intros r _.
      rewrite length_map. apply Linear_row_length. }
  rewrite !map_map. reflexivity.
Qed.

(** The points [torch.cat((x, y), dim=2)] makes of two tensors of rank 3. *)
Lemma cat_points (x y : tensor) (b n dx dy : nat) :
  shape x = [b; n; dx] -> wf x -> shape y = [b; n; dy] -> wf y ->
  let pts := zip_with (@app R) (chunk (b * n) dx (data x)) (chunk (b * n) dy (data y)) in
  Forall (fun r => length r = (dx + dy)%nat) pts /\ length pts = numel [b; n].
Proof.
  intros Hx Wx Hy Wy pts. split.
  - apply zip_app_rows; apply chunk_rows_length.
    + rewrite Wx, Hx. cbn. lia.
    + rewrite Wy, Hy. cbn. lia.
  - unfold pts. rewrite zip_with_length_same; rewrite !chunk_length, ?numel_pair; reflexivity.
Qed.

(** An MLP encoder on inputs of rank 3 whose feature sizes add up to
    [x_dim + y_dim]: the result, at the level of points. *)
Lemma MLPEncoder_forward_points
    (x_dim y_dim : nat) (rs_dim : dim_arg) (h_dim : nat) (w : MLPParams)
    (x y : tensor) (b n dx dy : nat) :
  let enc := Canonical.MLPEncoder_init x_dim y_dim rs_dim h_dim w in
  let rs := Canonical.rs_dim (Canonical.MLP_super enc) in
  shape x = [b; n; dx] -> wf x -> shape y = [b; n; dy] -> wf y ->
  (dx + dy = x_dim + y_dim)%nat ->
  Canonical.MLPEncoder_forward enc x y
  = Ok {| shape := [b; n] ++ rs;
          data := concat (map (mlp_point x_dim y_dim h_dim (numel rs) w)
                            (zip_with (@app R) (chunk (b * n) dx (data x))
                                               (chunk (b * n) dy (data y)))) |}.
Proof.
  intros enc rs Hx Wx Hy Wy Hd.
  destruct (cat_points x y b n dx dy Hx Wx Hy Wy) as [Hrows Hlen].
  unfold Canonical.MLPEncoder_forward. rewrite (cat_dim2_rank3 x y b n dx dy Hx Hy).
  cbn [bind]. rewrite Hd in *.
  change (Canonical.input_to_rs enc)
    with ([ LLinear (nn.Linear_init (x_dim + y_dim) h_dim (fc1 w)); LReLU;
            LLinear (nn.Linear_init h_dim h_dim (fc2 w)); LReLU;
            LLinear (nn.Linear_init h_dim (numel rs) (fc3 w)) ]
          ++ [LReshapeLast rs]).
  rewrite Sequential_forward_app, (linear_stack_forward _ _ _ _ _ _ Hrows Hlen).
  cbn [bind Sequential_forward Layer_forward].
  rewrite ReshapeLast_forward_snoc. reflexivity.
Qed.

(** When the feature sizes do not add up, the first layer refuses the
    input. *)
Lemma MLPEncoder_forward_mismatch
    (x_dim y_dim : nat) (rs_dim : dim_arg) (h_dim : nat) (w : MLPParams)
    (x y : tensor) (b n dx dy : nat) :
  shape x = [b; n; dx] -> shape y = [b; n; dy] ->
  (dx + dy <> x_dim + y_dim)%nat ->
  Canonical.MLPEncoder_forward (Canonical.MLPEncoder_init x_dim y_dim rs_dim h_dim w) x y
  = Err ShapeError.
Proof.
  intros Hx Hy Hd.
  unfold Canonical.MLPEncoder_forward. rewrite (cat_dim2_rank3 x y b n dx dy Hx Hy).
  cbn [bind Canonical.input_to_rs Canonical.MLPEncoder_init Sequential_forward Layer_forward].
  unfold nn.Linear_forward at 1. cbn [shape]. rewrite last_dim_snoc.
  cbn [nn.in_features nn.Linear_init].
  destruct (decide _); [contradiction|reflexivity].
Qed.

Lemma squeeze_last_keeps (x : tensor) (lead : list nat) (d : nat) :
  shape x = lead ++ [d] -> d <> 1%nat -> nn.squeeze_last x = x.
Proof.
  intros Hx Hd. unfold nn.squeeze_last. rewrite Hx, last_dim_snoc.
  destruct d as [|[|d]]; [reflexivity|contradiction|reflexivity].
Qed.

Lemma ReshapeLast_forward_shape (T : list nat) (a out : tensor) :
  util.ReshapeLast_forward T a = Ok out -> shape out = removelast (shape a) ++ T.
Proof.
  unfold util.ReshapeLast_forward.
  destruct (last_dim (shape a)); [destruct (decide _)|]; intros [= <-]; reflexivity.
Qed.

(** An attention encoder on inputs of rank 3, away from the sizes at which
    [squeeze(-1)] removes a dimension: the attention module sees the
    [(b, n, output_size)] embeddings and its output is reshaped. *)
Lemma AttentionEncoder_forward_shape
    (values : nn.MultiheadAttention -> tensor -> list R)
    (x_dim y_dim : nat) (rs_dim : dim_arg) (h_dim : nat) (w : MLPParams)
    (enc : Canonical.AttentionEncoder) (x y : tensor) (b n dx dy : nat) :
  Canonical.AttentionEncoder_init x_dim y_dim rs_dim h_dim w = Ok enc ->
  shape x = [b; n; dx] -> wf x -> shape y = [b; n; dy] -> wf y ->
  (dx + dy = x_dim + y_dim)%nat -> (dx + dy <> 1)%nat ->
  numel (Canonical.shaper enc) <> 1%nat ->
  exists out : tensor,
    Canonical.AttentionEncoder_forward values enc x y = Ok out
    /\ shape out = [b; n] ++ Canonical.shaper enc.
Proof.
  intros Hinit Hx Wx Hy Wy Hd Hd1 Hout.
  unfold Canonical.AttentionEncoder_init in Hinit.
  remember (Canonical.rs_dim (Canonical.Encoder_init x_dim y_dim rs_dim)) as rs eqn:Hrs.
  clear Hrs.
  destruct (nth_error _ 1) as [heads|]; [|discriminate]. cbn [bind] in Hinit.
  destruct (nn.MultiheadAttention_init _ heads) as [a|] eqn:Ha; [|discriminate].
  cbn [bind] in Hinit. injection Hinit as <-. cbn [Canonical.shaper] in *.
  assert (Hemb : nn.embed_dim a = numel rs).
  { unfold nn.MultiheadAttention_init in Ha.
    destruct (decide _); [discriminate|]. destruct (decide _); [|discriminate].
    injection Ha as <-. reflexivity. }
  destruct (cat_points x y b n dx dy Hx Wx Hy Wy) as [Hrows Hlen].
  unfold Canonical.AttentionEncoder_forward.
  rewrite (cat_dim2_rank3 x y b n dx dy Hx Hy). cbn [bind].
  rewrite (squeeze_last_keeps _ [b; n] (dx + dy)) by (assumption || reflexivity).
  rewrite Hd in *. cbn [Canonical.batch_mlp].
  rewrite (linear_stack_forward _ _ _ _ _ _ Hrows Hlen). cbn [bind].
  rewrite (squeeze_last_keeps _ [b; n] (numel rs)) by (assumption || reflexivity).
  unfold nn.MultiheadAttention_forward. cbn [shape app Canonical.attn].
  destruct (decide _) as [_|H]; [|exfalso; apply H; symmetry; exact Hemb].
  cbn [bind].
  change [b; n; numel rs] with ([b; n] ++ [numel rs]).
  rewrite ReshapeLast_forward_snoc. eexists. split; reflexivity.
Qed.

(** C7 (as amended).  With a pair [rs_dim = (parameter_dim, num_heads)] of
    positive entries, their product below 2^63, the constructor succeeds
    whether or not [num_heads] divides [parameter_dim]: the attention module
    is built on [parameter_dim * num_heads] features with [num_heads] heads.
    Nothing is raised at forward time either, on non-empty inputs of rank 3
    whose feature sizes add up to [x_dim + y_dim], as long as neither that
    sum nor the product is 1: the output has shape
    [(b, n, parameter_dim, num_heads)]. *)
Theorem AttentionEncoder_init_succeeds
    (x_dim y_dim h_dim parameter_dim num_heads : nat) (w : MLPParams) :
  (0 < parameter_dim)%nat -> (0 < num_heads)%nat ->
  (Z.of_nat parameter_dim * Z.of_nat num_heads < 2 ^ 63)%Z ->
  exists enc : Canonical.AttentionEncoder,
    Canonical.AttentionEncoder_init x_dim y_dim (DTuple [parameter_dim; num_heads]) h_dim w
    = Ok enc
    /\ nn.embed_dim (Canonical.attn enc) = (parameter_dim * num_heads)%nat
    /\ nn.num_heads (Canonical.attn enc) = num_heads
    /\ forall (values : nn.MultiheadAttention -> tensor -> list R)
              (x y : tensor) (b n dx dy : nat),
         shape x = [b; n; dx] -> wf x -> shape y = [b; n; dy] -> wf y ->
         (0 < b)%nat -> (0 < n)%nat ->
         (dx + dy = x_dim + y_dim)%nat -> (dx + dy <> 1)%nat ->
         (parameter_dim * num_heads <> 1)%nat ->
         exists out : tensor,
           Canonical.AttentionEncoder_forward values enc x y = Ok out
           /\ shape out = [b; n; parameter_dim; num_heads].
Proof.
  intros Hp Hh _.
  destruct (Canonical.AttentionEncoder_init x_dim y_dim (DTuple [parameter_dim; num_heads])
              h_dim w) as [enc|e] eqn:Hinit.
  2:{ exfalso. unfold Canonical.AttentionEncoder_init in Hinit.
      cbn [bind Canonical.Encoder_init Canonical.rs_dim nth_error numel fold_right] in Hinit.
      rewrite Nat.mul_1_r, (MultiheadAttention_init_product _ _ Hp Hh) in Hinit.
      discriminate. }
  exists enc. split; [reflexivity|].
  assert (Henc : nn.embed_dim (Canonical.attn enc) = (parameter_dim * num_heads)%nat
                 /\ nn.num_heads (Canonical.attn enc) = num_heads
                 /\ Canonical.shaper enc = [parameter_dim; num_heads]).
  { pose proof Hinit as H. unfold Canonical.AttentionEncoder_init in H.
    cbn [bind Canonical.Encoder_init Canonical.rs_dim nth_error numel fold_right] in H.
    rewrite Nat.mul_1_r, (MultiheadAttention_init_product _ _ Hp Hh) in H.
    cbn [bind] in H. injection H as <-. repeat split. }
  destruct Henc as (He & Hn & Hs). split; [exact He|]. split; [exact Hn|].
  intros values x y b n dx dy Hx Wx Hy Wy _ _ Hd Hd1 Hph.
  destruct (AttentionEncoder_forward_shape values x_dim y_dim
              (DTuple [parameter_dim; num_heads]) h_dim w enc x y b n dx dy
              Hinit Hx Wx Hy Wy Hd Hd1) as (out & Hout & Hshape).
  - rewrite Hs. cbn [numel fold_right]. lia.
  - exists out. split; [exact Hout|]. rewrite Hshape, Hs. reflexivity.
Qed.

Lemma AttentionEncoder_init_succeeds_witness :
  exists enc : Canonical.AttentionEncoder,
    Canonical.AttentionEncoder_init 2 1 (DTuple [6; 3]%nat) 4 zero_params = Ok enc
    /\ nn.embed_dim (Canonical.attn enc) = 18%nat
    /\ nn.num_heads (Canonical.attn enc) = 3%nat
    /\ forall (values : nn.MultiheadAttention -> tensor -> list R)
              (x y : tensor) (b n dx dy : nat),
         shape x = [b; n; dx] -> wf x -> shape y = [b; n; dy] -> wf y ->
         (0 < b)%nat -> (0 < n)%nat ->
         (dx + dy = 2 + 1)%nat -> (dx + dy <> 1)%nat -> (6 * 3 <> 1)%nat ->
         exists out : tensor,
           Canonical.AttentionEncoder_forward values enc x y = Ok out
           /\ shape out = [b; n; 6; 3]%nat.
Proof.
  apply (AttentionEncoder_init_succeeds 2 1 4 6 3 zero_params); lia.
Defined.

(** C8 (as amended).  The MLP encoder built with [x_dim=2], [y_dim=1] and the
    integer [rs_dim=8] stores [rs_dim] as [(8, 1)]: on [x] of shape
    [(4, 5, 2)] and [y] of shape [(4, 5, 1)] it returns a tensor of shape
    [(4, 5, 8, 1)], for every [h_dim]. *)
Theorem MLPEncoder_shape_4_5_8_1 (h_dim : nat) (w : MLPParams) (x y : tensor) :
  shape x = [4; 5; 2]%nat -> wf x -> shape y = [4; 5; 1]%nat -> wf y ->
  exists out : tensor,
    Canonical.MLPEncoder_forward (Canonical.MLPEncoder_init 2 1 (DInt 8) h_dim w) x y = Ok out
    /\ shape out = [4; 5; 8; 1]%nat.
Proof.
  intros Hx Wx Hy Wy.
  rewrite (MLPEncoder_forward_points 2 1 (DInt 8) h_dim w x y 4 5 2 1 Hx Wx Hy Wy eq_refl).
  eexists. split; reflexivity.
Qed.

Lemma zeros_wf (s : list nat) : wf (zeros s).
Proof. unfold wf, zeros. cbn [shape data]. apply repeat_length. Qed.

Lemma MLPEncoder_shape_4_5_8_1_witness :
  exists out : tensor,
    Canonical.MLPEncoder_forward (Canonical.MLPEncoder_init 2 1 (DInt 8) 3 zero_params)
      (zeros [4; 5; 2]%nat) (zeros [4; 5; 1]%nat) = Ok out
    /\ shape out = [4; 5; 8; 1]%nat.
Proof.
  apply (MLPEncoder_shape_4_5_8_1 3 zero_params (zeros [4; 5; 2]%nat) (zeros [4; 5; 1]%nat)).
  - reflexivity.
  - apply zeros_wf.
  - reflexivity.
  - apply zeros_wf.
Defined.

(** C8 as stated fails: the output has a fourth dimension of size 1. *)
Lemma MLPEncoder_shape_not_4_5_8 :
  ~ (forall out : tensor,
       Canonical.MLPEncoder_forward (Canonical.MLPEncoder_init 2 1 (DInt 8) 3 zero_params)
         (zeros [4; 5; 2]%nat) (zeros [4; 5; 1]%nat) = Ok out ->
       shape out = [4; 5; 8]%nat).
Proof.
  intros H.
  pose proof (MLPEncoder_forward_points 2 1 (DInt 8) 3 zero_params
                (zeros [4; 5; 2]%nat) (zeros [4; 5; 1]%nat) 4 5 2 1
                eq_refl (zeros_wf _) eq_refl (zeros_wf _) eq_refl) as Hf.
  cbv zeta in Hf. specialize (H _ Hf). discriminate H.
Qed.

(** C10 (as amended).  An integer [rs_dim = r] is stored as the pair
    [(r, 1)] by the base class and so by both encoders.  The MLP encoder
    then returns a tensor of shape [(b, n, r, 1)].  The attention encoder is
    built with exactly one head (for every [r > 0]; the attention module
    rejects [r = 0]), every tensor it returns has a shape that ends in
    [(r, 1)], and on non-empty inputs that the [squeeze] calls leave alone
    (more than one input feature, [r <> 1]) it returns a tensor of shape
    [(b, n, r, 1)]. *)
Theorem integer_rs_dim_is_pair (x_dim y_dim r h_dim : nat) (w : MLPParams) :
  Canonical.rs_dim (Canonical.Encoder_init x_dim y_dim (DInt r)) = [r; 1%nat]
  /\ Canonical.rs_dim
       (Canonical.MLP_super (Canonical.MLPEncoder_init x_dim y_dim (DInt r) h_dim w))
     = [r; 1%nat]
  /\ (forall (x y : tensor) (b n dx dy : nat),
        shape x = [b; n; dx] -> wf x -> shape y = [b; n; dy] -> wf y ->
        (dx + dy = x_dim + y_dim)%nat ->
        exists out : tensor,
          Canonical.MLPEncoder_forward
            (Canonical.MLPEncoder_init x_dim y_dim (DInt r) h_dim w) x y = Ok out
          /\ shape out = [b; n; r; 1%nat])
  /\ ((0 < r)%nat -> (Z.of_nat r < 2 ^ 63)%Z ->
      exists enc : Canonical.AttentionEncoder,
        Canonical.AttentionEncoder_init x_dim y_dim (DInt r) h_dim w = Ok enc)
  /\ (forall enc : Canonical.AttentionEncoder,
        Canonical.AttentionEncoder_init x_dim y_dim (DInt r) h_dim w = Ok enc ->
        Canonical.rs_dim (Canonical.Attn_super enc) = [r; 1%nat]
        /\ nn.num_heads (Canonical.attn enc) = 1%nat
        /\ (forall values x y out,
              Canonical.AttentionEncoder_forward values enc x y = Ok out ->
              exists lead : list nat, shape out = lead ++ [r; 1%nat])
        /\ (forall values (x y : tensor) (b n dx dy : nat),
              shape x = [b; n; dx] -> wf x -> shape y = [b; n; dy] -> wf y ->
              (0 < b)%nat -> (0 < n)%nat ->
              (dx + dy = x_dim + y_dim)%nat -> (dx + dy <> 1)%nat -> (r <> 1)%nat ->
              exists out : tensor,
                Canonical.AttentionEncoder_forward values enc x y = Ok out
                /\ shape out = [b; n; r; 1%nat])).
Proof.
  split; [reflexivity|]. split; [reflexivity|]. split; [|split].
  - intros x y b n dx dy Hx Wx Hy Wy Hd.
    rewrite (MLPEncoder_forward_points x_dim y_dim (DInt r) h_dim w x y b n dx dy Hx Wx Hy Wy Hd).
    eexists. split; reflexivity.
  - intros Hr _. unfold Canonical.AttentionEncoder_init.
    cbn [bind Canonical.Encoder_init Canonical.rs_dim nth_error numel fold_right].
    replace (r * (1 * 1))%nat with (r * 1)%nat by lia.
    rewrite (MultiheadAttention_init_product r 1 Hr Nat.lt_0_1). cbn [bind].
    eexists; reflexivity.
  - intros enc Hinit. pose proof Hinit as Hinit'.
    unfold Canonical.AttentionEncoder_init in Hinit.
    cbn [bind Canonical.Encoder_init Canonical.rs_dim nth_error] in Hinit.
    destruct (nn.MultiheadAttention_init _ 1) as [a|] eqn:Ha; [|discriminate].
    cbn [bind] in Hinit. injection Hinit as <-.
    assert (Hheads : nn.num_heads a = 1%nat).
    { unfold nn.MultiheadAttention_init in Ha.
      destruct (decide _); [discriminate|]. destruct (decide _); [|discriminate].
      injection Ha as <-. reflexivity. }
    split; [reflexivity|]. split; [exact Hheads|]. split.
    + intros values x y out Hf. unfold Canonical.AttentionEncoder_forward in Hf.
      destruct (nn.cat_dim2 x y); [|discriminate]. cbn [bind] in Hf.
      destruct (Sequential_forward _ _); [|discriminate]. cbn [bind] in Hf.
      destruct (nn.MultiheadAttention_forward _ _ _) as [ao|]; [|discriminate].
      cbn [bind Canonical.shaper] in Hf.
      apply ReshapeLast_forward_shape in Hf. eexists. exact Hf.
    + intros values x y b n dx dy Hx Wx Hy Wy _ _ Hd Hd1 Hr1.
      apply (AttentionEncoder_forward_shape values x_dim y_dim (DInt r) h_dim w _ x y b n dx dy
               Hinit' Hx Wx Hy Wy Hd Hd1).
      cbn. lia.
Qed.

(** C10 as stated fails: an attention encoder built with the integer
    [rs_dim = 1], applied to one point per batch element, returns a tensor
    of shape [(2, 1, 1)], which has three dimensions, not the four of
    [(batch, n, d1, d2)]: the second [squeeze(-1)] drops the feature axis of
    the embeddings, and the attention module takes what is left for one
    unbatched sequence. *)
Lemma integer_rs_dim_output_rank_3 :
  ~ (forall (values : nn.MultiheadAttention -> tensor -> list R)
            (enc : Canonical.AttentionEncoder) (x y out : tensor) (b n : nat),
       Canonical.AttentionEncoder_init 2 1 (DInt 1) 3 zero_params = Ok enc ->
       shape x = [b; n; 2%nat] -> wf x -> shape y = [b; n; 1%nat] -> wf y ->
       Canonical.AttentionEncoder_forward values enc x y = Ok out ->
       exists d1 d2 : nat, shape out = [b; n; d1; d2]).
Proof.
  intros H.
  destruct (Canonical.AttentionEncoder_init 2 1 (DInt 1) 3 zero_params)
    as [enc|e] eqn:Hinit; [|vm_compute in Hinit; discriminate].
  destruct (Canonical.AttentionEncoder_forward (fun _ q => data q) enc
              (zeros [2; 1; 2]%nat) (zeros [2; 1; 1]%nat)) as [out|e] eqn:Hf.
  - destruct (H (fun _ q => data q) enc (zeros [2; 1; 2]%nat) (zeros [2; 1; 1]%nat) out
                2%nat 1%nat eq_refl eq_refl (zeros_wf _) eq_refl (zeros_wf _) Hf)
      as (d1 & d2 & Hs).
    vm_compute in Hinit. injection Hinit as <-.
    apply (f_equal (@length nat)) in Hs.
    unfold Canonical.AttentionEncoder_forward in Hf.
    assert (Hlen : length (shape out) = 3%nat).
    { revert Hf. clear. intros Hf.
      assert (Hsh : rmap shape (Ok out) = Ok [2; 1; 1]%nat).
      { rewrite <- Hf. vm_compute. reflexivity. }
      injection Hsh as ->. reflexivity. }
    rewrite Hlen in Hs. discriminate Hs.
  - vm_compute in Hinit. injection Hinit as <-.
    assert (Hsh : rmap shape (@Err tensor e) = Ok [2; 1; 1]%nat).
    { rewrite <- Hf. vm_compute. reflexivity. }
    discriminate Hsh.
Qed.

Lemma integer_rs_dim_is_pair_witness :
  exists out : tensor,
    Canonical.MLPEncoder_forward (Canonical.MLPEncoder_init 2 1 (DInt 8) 3 zero_params)
      (zeros [2; 3; 2]%nat) (zeros [2; 3; 1]%nat) = Ok out
    /\ shape out = [2; 3; 8; 1]%nat.
Proof.
  apply (proj1 (proj2 (proj2 (integer_rs_dim_is_pair 2 1 8 3 zero_params)))
           (zeros [2; 3; 2]%nat) (zeros [2; 3; 1]%nat) 2%nat 3%nat 2%nat 1%nat).
  - reflexivity.
  - apply zeros_wf.
  - reflexivity.
  - apply zeros_wf.
  - reflexivity.
Defined.

(** ** Reordering the points *)

Section SelectFacts.
Context {A : Type}.

Lemma select_length (I : list nat) (l : list A) (d : A) :
  length (select I l d) = length I.
Proof. unfold select. apply length_map. Qed.

Lemma select_Forall (P : A -> Prop) (I : list nat) (l : list A) (d : A) :
  Forall P l -> Forall (fun i => (i < length l)%nat) I -> Forall P (select I l d).
Proof.
  intros Hl HI. unfold select. apply Forall_map. apply (Forall_impl _ _ _ HI).
  intros i Hi. simpl. rewrite Forall_forall in Hl. apply Hl. apply list_elem_of_In, nth_In, Hi.
Qed.

Lemma select_map {B : Type} (f : A -> B) (I : list nat) (l : list A) (d : A) (d' : B) :
  Forall (fun i => (i < length l)%nat) I ->
  select I (map f l) d' = map f (select I l d).
Proof.
  intros HI. unfold select. rewrite map_map. apply map_ext_in.
  intros i Hi. rewrite Forall_forall in HI. apply list_elem_of_In, HI in Hi.
  rewrite (nth_indep _ d' (f d)) by (rewrite length_map; exact Hi).
  apply map_nth.
Qed.

Lemma nth_zip_with {B C : Type} (f : A -> B -> C) (u : list A) (v : list B)
    (i : nat) (da : A) (db : B) (dc : C) :
  (i < length u)%nat -> length u = length v ->
  nth i (zip_with f u v) dc = f (nth i u da) (nth i v db).
Proof.
  revert v i; induction u as [|a u IH]; intros [|c v] i Hi Hlen; simpl in *; try lia.
  destruct i as [|i]; [reflexivity|]. apply IH; lia.
Qed.

Lemma select_zip_with {B C : Type} (f : A -> B -> C) (I : list nat)
    (u : list A) (v : list B) (da : A) (db : B) (dc : C) :
  length u = length v -> Forall (fun i => (i < length u)%nat) I ->
  select I (zip_with f u v) dc = zip_with f (select I u da) (select I v db).
Proof.
  intros Hlen HI. induction HI as [|i I Hi _ IH]; simpl; [reflexivity|].
  rewrite (nth_zip_with f u v i da db dc Hi Hlen). f_equal. exact IH.
Qed.

(** Selecting after the first [n] entries is selecting at shifted indices. *)
Lemma select_shift (n : nat) (I : list nat) (l : list A) (d : A) :
  select (map (fun k => (n + k)%nat) I) l d = select I (skipn n l) d.
Proof.
  unfold select. rewrite map_map. apply map_ext. intros i. symmetry. apply nth_skipn.
Qed.

Lemma select_firstn (n : nat) (I : list nat) (l : list A) (d : A) :
  Forall (fun i => (i < n)%nat) I -> select I (firstn n l) d = select I l d.
Proof.
  intros HI. unfold select. apply map_ext_in. intros i Hi.
  rewrite Forall_forall in HI. apply list_elem_of_In, HI in Hi.
  rewrite nth_firstn. destruct (Nat.ltb_spec i n); [reflexivity|lia].
Qed.
End SelectFacts.

Lemma point_index_length (p : list nat) (b n : nat) :
  length (point_index p b n) = (b * length p)%nat.
Proof.
  induction b as [|b IH]; simpl; [reflexivity|].
  rewrite length_app, length_map, IH. reflexivity.
Qed.

Lemma point_index_bound (p : list nat) (b n : nat) :
  Forall (fun i => (i < n)%nat) p ->
  Forall (fun i => (i < b * n)%nat) (point_index p b n).
Proof.
  intros Hp. induction b as [|b IH]; simpl; [constructor|].
  apply Forall_app. split.
  - apply (Forall_impl _ _ _ Hp). intros i Hi. simpl. lia.
  - apply Forall_map. apply (Forall_impl _ _ _ IH). intros i Hi. simpl. lia.
Qed.

Lemma concat_concat_map {A : Type} (L : list (list (list A))) :
  concat (concat L) = concat (map (@concat A) L).
Proof.
  induction L as [|g L IH]; simpl; [reflexivity|].
  rewrite concat_app, IH. reflexivity.
Qed.

(** Reordering within each group is one selection over all the rows. *)
Lemma select_groups {A : Type} (p : list nat) (b n : nat) (rows : list A) (d : A) :
  Forall (fun i => (i < n)%nat) p ->
  concat (map (fun g => select p g d) (chunk b n rows))
  = select (point_index p b n) rows d.
Proof.
  intros Hp. revert rows; induction b as [|b IH]; intros rows; simpl; [reflexivity|].
  rewrite IH. unfold select at 3. rewrite map_app. f_equal.
  - apply (select_firstn n p rows d Hp).
  - symmetry. apply (select_shift n _ rows d).
Qed.

(** The entries of [permute_points p x], in terms of the rows of [x]. *)
Lemma permute_points_rows (p : list nat) (b n d : nat) (D : list R) :
  length D = (b * (n * d))%nat -> Forall (fun i => (i < n)%nat) p ->
  concat (map (fun blk => concat (select p (chunk n d blk) []))
              (chunk b (n * d) D))
  = concat (select (point_index p b n) (chunk (b * n) d D) []).
Proof.
  intros HD Hp.
  rewrite <- (select_groups p b n _ [] Hp), (chunk_groups b n d D HD).
  rewrite chunk_concat.
  - rewrite concat_concat_map, !map_map. reflexivity.
  - rewrite length_map. apply chunk_length.
  - apply Forall_map, Forall_forall. intros blk _. apply chunk_length.
Qed.

Lemma permutation_indices (p : list nat) (n : nat) :
  Permutation p (seq 0 n) -> length p = n /\ Forall (fun i => (i < n)%nat) p.
Proof.
  intros Hp. split.
  - rewrite (Permutation_length Hp). apply length_seq.
  - apply Forall_forall. intros i Hi. apply list_elem_of_In in Hi.
    apply (Permutation_in _ Hp), in_seq in Hi. lia.
Qed.

(** A reordered tensor of rank 3: its shape, its well-formedness, its
    rows. *)
Lemma permute_points_rank3 (p : list nat) (x : tensor) (b n d : nat) :
  shape x = [b; n; d] -> wf x -> Permutation p (seq 0 n) ->
  shape (permute_points p x) = [b; n; d]
  /\ wf (permute_points p x)
  /\ chunk (b * n) d (data (permute_points p x))
     = select (point_index p b n) (chunk (b * n) d (data x)) [].
Proof.
  intros Hx Wx Hp. destruct (permutation_indices p n Hp) as [Hlen Hlt].
  assert (HD : length (data x) = (b * (n * d))%nat).
  { rewrite Wx, Hx. cbn. lia. }
  assert (Hrows : Forall (fun r => length r = d)
                    (select (point_index p b n) (chunk (b * n) d (data x)) [])).
  { apply select_Forall.
    - apply chunk_rows_length. lia.
    - rewrite chunk_length. apply point_index_bound, Hlt. }
  assert (Hdata : data (permute_points p x)
                  = concat (select (point_index p b n) (chunk (b * n) d (data x)) [])).
  { unfold permute_points. rewrite Hx. cbn [data numel fold_right].
    rewrite Nat.mul_1_r. apply permute_points_rows; assumption. }
  split; [|split].
  - unfold permute_points. rewrite Hx. cbn [shape]. now rewrite Hlen.
  - unfold wf. rewrite Hdata. unfold permute_points. rewrite Hx. cbn [shape].
    rewrite (concat_length_uniform d _ Hrows), select_length, point_index_length, Hlen.
    cbn. lia.
  - rewrite Hdata. apply chunk_concat; [|exact Hrows].
    rewrite select_length, point_index_length, Hlen. reflexivity.
Qed.

(** C6.  Reordering the points of [x] and of [y] by the same permutation
    reorders the points of the output of the MLP encoder in the same way;
    when the encoder refuses the inputs it refuses the reordered ones with
    the same exception. *)
Theorem MLPEncoder_permutation_equivariant
    (x_dim y_dim : nat) (rs_dim : dim_arg) (h_dim : nat) (w : MLPParams)
    (x y : tensor) (p : list nat) (b n dx dy : nat) :
  shape x = [b; n; dx] -> wf x -> shape y = [b; n; dy] -> wf y ->
  Permutation p (seq 0 n) ->
  let enc := Canonical.MLPEncoder_init x_dim y_dim rs_dim h_dim w in
  Canonical.MLPEncoder_forward enc (permute_points p x) (permute_points p y)
  = rmap (permute_points p) (Canonical.MLPEncoder_forward enc x y).
Proof.
  intros Hx Wx Hy Wy Hp enc.
  destruct (permute_points_rank3 p x b n dx Hx Wx Hp) as (Hx' & Wx' & Rx).
  destruct (permute_points_rank3 p y b n dy Hy Wy Hp) as (Hy' & Wy' & Ry).
  destruct (permutation_indices p n Hp) as [Hlen Hlt].
  destruct (decide (dx + dy = x_dim + y_dim)%nat) as [Hd|Hd].
  2:{ unfold enc.
      rewrite (MLPEncoder_forward_mismatch _ _ _ _ _ _ _ b n dx dy Hx' Hy' Hd).
      rewrite (MLPEncoder_forward_mismatch _ _ _ _ _ _ _ b n dx dy Hx Hy Hd).
      reflexivity. }
  unfold enc.
  rewrite (MLPEncoder_forward_points _ _ _ _ _ _ _ b n dx dy Hx' Wx' Hy' Wy' Hd).
  rewrite (MLPEncoder_forward_points _ _ _ _ _ _ _ b n dx dy Hx Wx Hy Wy Hd).
  cbn [rmap bind]. f_equal.
  destruct (cat_points x y b n dx dy Hx Wx Hy Wy) as [Hrows Hnum].
  rewrite numel_pair in Hnum.
  set (rs := Canonical.rs_dim _).
  set (f := mlp_point x_dim y_dim h_dim (numel rs) w).
  rewrite Rx, Ry.
  set (I := point_index p b n).
  set (RX := chunk (b * n) dx (data x)) in *.
  set (RY := chunk (b * n) dy (data y)) in *.
  assert (HI : Forall (fun i => (i < b * n)%nat) I) by apply point_index_bound, Hlt.
  assert (HRX : length RX = (b * n)%nat) by apply chunk_length.
  assert (HRY : length RY = (b * n)%nat) by apply chunk_length.
  unfold permute_points. cbn [shape data app]. rewrite Hlen. f_equal.
  rewrite permute_points_rows.
  - rewrite chunk_concat.
    + rewrite (select_map f I _ []) by (rewrite Hnum; exact HI).
      rewrite (select_zip_with (@app R) I RX RY [] [] []);
        [reflexivity|congruence|rewrite HRX; exact HI].
    + rewrite length_map. exact Hnum.
    + apply Forall_map, Forall_forall. intros r _. apply Linear_row_length.
  - rewrite (concat_length_uniform (numel rs)).
    + rewrite length_map, Hnum. lia.
    + apply Forall_map, Forall_forall. intros r _. apply Linear_row_length.
  - exact Hlt.
Qed.

(** ** The criterion: the two terms of the loss *)

Lemma bigsum_S (n : nat) (f : nat -> R) :
  bigsum (S n) f = f 0%nat + bigsum n (fun i => f (S i)).
Proof. unfold bigsum. simpl. now rewrite <- seq_shift, map_map. Qed.

Lemma bigsum_ext (n : nat) (f g : nat -> R) :
  (forall i, (i < n)%nat -> f i = g i) -> bigsum n f = bigsum n g.
Proof.
  intros H. unfold bigsum. f_equal. apply map_ext_in. intros i Hi.
  apply in_seq in Hi. apply H. lia.
Qed.

Lemma Rsum_map_bigsum {A : Type} (F : A -> R) (l : list A) (d : A) :
  Rsum (map F l) = bigsum (length l) (fun i => F (nth i l d)).
Proof.
  induction l as [|a l IH]; [reflexivity|].
  cbn [length map Rsum]. rewrite bigsum_S, IH. reflexivity.
Qed.

Lemma Rsum_bigsum (l : list R) : Rsum l = bigsum (length l) (fun i => nth i l 0).
Proof. rewrite <- (map_id l) at 1. apply (Rsum_map_bigsum (fun a => a) l 0). Qed.

Lemma nth_chunk {A : Type} (k d i : nat) (l : list A) :
  (i < k)%nat -> nth i (chunk k d l) [] = firstn d (skipn (i * d) l).
Proof.
  revert i l; induction k as [|k IH]; intros i l Hi; [lia|].
  destruct i as [|i]; simpl; [reflexivity|].
  rewrite IH by lia. now rewrite skipn_skipn, (Nat.add_comm (i * d) d).
Qed.

Lemma nth_chunk_entry (k d i j : nat) (l : list R) :
  (i < k)%nat -> (j < d)%nat -> nth j (nth i (chunk k d l) []) 0 = nth (i * d + j) l 0.
Proof.
  intros Hi Hj. rewrite nth_chunk by exact Hi. rewrite nth_firstn.
  destruct (Nat.ltb_spec j d); [|lia]. apply nth_skipn.
Qed.

(** Summing the blocks of a matrix stored row by row. *)
Lemma Rsum_chunks (b n : nat) (l : list R) :
  length l = (b * n)%nat ->
  Rsum (map Rsum (chunk b n l))
  = bigsum b (fun i => bigsum n (fun j => nth (i * n + j) l 0)).
Proof.
  intros Hl. rewrite (Rsum_map_bigsum Rsum _ []), chunk_length.
  apply bigsum_ext. intros i Hi.
  pose proof (chunk_rows_length b n l Hl) as Hall. rewrite Forall_forall in Hall.
  assert (Hrow : length (nth i (chunk b n l) []) = n).
  { apply Hall, list_elem_of_In, nth_In. now rewrite chunk_length. }
  rewrite Rsum_bigsum, Hrow. apply bigsum_ext. intros j Hj.
  apply nth_chunk_entry; assumption.
Qed.

Lemma sum_rows_singletons (blk : list R) (acc : R) :
  fold_left (zip_with Rplus) (chunk (length blk) 1 blk) [acc] = [acc + Rsum blk].
Proof.
  revert acc; induction blk as [|a blk IH]; intros acc; simpl.
  - f_equal. lra.
  - rewrite IH. f_equal. lra.
Qed.

(** [sum(dim=1)] of a matrix: the sums of its rows. *)
Lemma tensor_sum_1_matrix (x : tensor) (b n : nat) :
  shape x = [b; n] -> wf x ->
  tensor_sum 1 x = Ok {| shape := [b]; data := map Rsum (chunk b n (data x)) |}.
Proof.
  intros Hx Wx. unfold tensor_sum. rewrite Hx.
  destruct (decide _) as [_|H]; [|simpl in H; lia].
  cbn [firstn skipn app nth numel fold_right]. rewrite !Nat.mul_1_r. do 2 f_equal.
  assert (Hl : length (data x) = (b * n)%nat) by (rewrite Wx, Hx; cbn; lia).
  pose proof (chunk_rows_length b n _ Hl) as Hall.
  induction Hall as [|blk rest Hblk _ IH]; [reflexivity|].
  cbn [map concat]. rewrite IH. unfold sum_rows. cbn [repeat].
  rewrite <- Hblk at 1. rewrite sum_rows_singletons, Rplus_0_l. reflexivity.
Qed.

Lemma tensor_mean_vector (b : nat) (l : list R) :
  tensor_mean {| shape := [b]; data := l |} = Rsum l / INR b.
Proof. unfold tensor_mean. cbn [shape data numel fold_right]. now rewrite py_sum_Rsum, Nat.mul_1_r. Qed.

(** [x.sum(dim=1).mean()] of a matrix. *)
Lemma sum_mean_matrix (x : tensor) (b n : nat) :
  shape x = [b; n] -> wf x ->
  exists s : tensor,
    tensor_sum 1 x = Ok s
    /\ tensor_mean s = bigsum b (fun i => bigsum n (fun j => entry x [i; j])) / INR b.
Proof.
  intros Hx Wx. rewrite (tensor_sum_1_matrix x b n Hx Wx). eexists. split; [reflexivity|].
  rewrite tensor_mean_vector, Rsum_chunks by (rewrite Wx, Hx; cbn; lia).
  rewrite (bigsum_ext b _ (fun i => bigsum n (fun j => entry x [i; j]))); [reflexivity|].
  intros i _. apply bigsum_ext. intros j _.
  unfold entry, offset. rewrite Hx. cbn. reflexivity.
Qed.

Lemma Forall_combine {A B : Type} (P : A -> Prop) (Q : B -> Prop) (u : list A) (v : list B) :
  Forall P u -> Forall Q v -> Forall (fun ab => P (fst ab) /\ Q (snd ab)) (combine u v).
Proof.
  intros Hu; revert v; induction Hu as [|a u Ha _ IH]; intros v Hv; simpl; [constructor|].
  destruct Hv as [|c v Hc Hv]; constructor; [split; assumption|apply IH; assumption].
Qed.

Lemma nth_map_seq (f : nat -> R) (n k : nat) :
  (k < n)%nat -> nth k (map f (seq 0 n)) 0 = f k.
Proof.
  intros Hk. rewrite (nth_indep _ 0 (f 0%nat)) by (rewrite length_map, length_seq; exact Hk).
  rewrite map_nth, seq_nth by exact Hk. reflexivity.
Qed.

(** The position read, in a matrix with [bs] rows (one row, or as many as
    the broadcast has), for the entry [(i, t)] of its broadcast. *)
Lemma broadcast_index_matrix (bs B n i t : nat) :
  (i < B)%nat -> (t < n)%nat -> bs = 1%nat \/ bs = B ->
  broadcast_index [bs; n] [B; n] (i * n + t) = (bcast bs i * n + t)%nat.
Proof.
  intros Hi Ht Hbs. unfold broadcast_index, bcast. cbn [rev app broadcast_index_rev].
  assert (Hmod : ((i * n + t) mod n = t)%nat).
  { rewrite Nat.add_comm, Nat.Div0.mod_add. apply Nat.mod_small, Ht. }
  assert (Hdiv : ((i * n + t) / n = i)%nat).
  { rewrite Nat.add_comm, Nat.div_add by lia. rewrite Nat.div_small by exact Ht. lia. }
  rewrite Hmod, Hdiv.
  assert (Hi' : (i mod B = i)%nat) by (apply Nat.mod_small, Hi).
  rewrite Hi'.
  destruct (decide (n = 1%nat)) as [Hn|Hn]; destruct (decide (bs = 1%nat)); nia.
Qed.

Lemma broadcast_shapes_matrix (by' bp n : nat) :
  bp = by' \/ bp = 1%nat \/ by' = 1%nat ->
  broadcast_shapes [by'; n] [bp; n] = Some [bsize by' bp; n].
Proof.
  intros Hc. unfold broadcast_shapes, bsize. cbn [rev app broadcast_rev].
  destruct (decide (by' = bp)) as [->|Hne].
  - destruct (decide (n = n)); [|contradiction]. cbn [rev app].
    destruct (decide (bp = 1%nat)); [subst|]; reflexivity.
  - destruct (decide (by' = 1%nat)) as [->|H1].
    + destruct (decide (n = n)); [|contradiction]. reflexivity.
    + destruct (decide (bp = 1%nat)) as [->|H2]; [|exfalso; lia].
      destruct (decide (n = n)); [|contradiction]. reflexivity.
Qed.

(** The log-probabilities of a batch of target sequences, logits and targets
    broadcast along the batch axis: success, shape, and the entry for target
    [t] of sequence [i]. *)
Lemma Categorical_log_prob_broadcast (p : tensor) (y : itensor) (bp by' n v : nat) :
  shape p = [bp; n; v] -> wf p -> ishape y = [by'; n] -> iwf y ->
  bp = by' \/ bp = 1%nat \/ by' = 1%nat ->
  (0 < bp)%nat -> (0 < by')%nat -> (0 < n)%nat ->
  Forall (fun c => (c < v)%nat) (idata y) ->
  exists lp : tensor,
    Categorical_log_prob p y = Ok lp
    /\ shape lp = [bsize by' bp; n] /\ wf lp
    /\ forall i t, (i < bsize by' bp)%nat -> (t < n)%nat ->
         entry lp [i; t]
         = entry p [bcast bp i; t; ientry y [bcast by' i; t]]
           - ln (bigsum v (fun c => exp (entry p [bcast bp i; t; c]))).
Proof.
  intros Hp Wp Hy Wy Hcompat Hbp Hby Hn Hc.
  assert (Hlp : length (data p) = (bp * n * v)%nat) by (rewrite Wp, Hp; cbn; lia).
  assert (Hly : length (idata y) = (by' * n)%nat) by (rewrite Wy, Hy; cbn; lia).
  assert (Hv : (0 < v)%nat).
  { destruct (idata y) as [|c l] eqn:E; [simpl in Hly; nia|].
    inversion Hc; subst. lia. }
  pose proof (chunk_rows_length (bp * n) v _ Hlp) as Hrows.
  set (B := bsize by' bp).
  unfold Categorical_log_prob. rewrite Hp, Hy. cbn [last_dim rev app removelast].
  destruct (decide _) as [H0|_]; [cbn in H0; nia|].
  rewrite (broadcast_shapes_matrix by' bp n Hcompat). fold B.
  assert (Hall : forallb (fun c => (c <? v)%nat) (idata y) = true).
  { apply forallb_forall. intros c Hin. apply Nat.ltb_lt.
    rewrite Forall_forall in Hc. apply Hc, list_elem_of_In, Hin. }
  rewrite Hall, !numel_pair.
  eexists. split; [reflexivity|]. cbn [shape data].
  split; [reflexivity|]. split.
  { unfold wf. cbn [shape data]. rewrite length_map, length_seq, numel_pair. reflexivity. }
  intros i t Hi Ht.
  assert (Hk : (i * n + t < B * n)%nat) by nia.
  assert (HBp : bp = 1%nat \/ bp = B).
  { unfold B, bsize. destruct (decide (by' = 1%nat)); lia. }
  assert (HBy : by' = 1%nat \/ by' = B).
  { unfold B, bsize. destruct (decide (by' = 1%nat)); lia. }
  assert (Hip : (bcast bp i < bp)%nat).
  { unfold bcast. destruct (decide (bp = 1%nat)); lia. }
  assert (Hiy : (bcast by' i < by')%nat).
  { unfold bcast. destruct (decide (by' = 1%nat)); lia. }
  unfold entry at 1, offset. cbn [shape data combine fold_left fst snd].
  replace ((0 * B + i) * n + t)%nat with (i * n + t)%nat by lia.
  rewrite nth_map_seq by exact Hk. cbv zeta.
  rewrite (broadcast_index_matrix bp B n i t Hi Ht HBp).
  rewrite (broadcast_index_matrix by' B n i t Hi Ht HBy).
  assert (Hr : (bcast bp i * n + t < bp * n)%nat) by nia.
  assert (Hcy : (nth (bcast by' i * n + t) (idata y) 0 < v)%nat).
  { rewrite Forall_forall in Hc. apply Hc, list_elem_of_In, nth_In. nia. }
  assert (Hrow : length (nth (bcast bp i * n + t) (chunk (bp * n) v (data p)) []) = v).
  { rewrite Forall_forall in Hrows. apply Hrows, list_elem_of_In, nth_In.
    now rewrite chunk_length. }
  unfold ientry, entry, offset. rewrite Hp, Hy. cbn [combine fold_left fst snd].
  replace ((0 * by' + bcast by' i) * n + t)%nat with (bcast by' i * n + t)%nat by lia.
  replace ((0 * bp + bcast bp i) * n + t)%nat with (bcast bp i * n + t)%nat by lia.
  f_equal.
  - apply nth_chunk_entry; assumption.
  - unfold logsumexp. rewrite py_sum_Rsum, (Rsum_map_bigsum exp _ 0), Hrow. f_equal.
    apply bigsum_ext. intros c Hcv. f_equal.
    apply nth_chunk_entry; assumption.
Qed.

Lemma bsize_same (b : nat) : bsize b b = b.
Proof. unfold bsize. destruct (decide _); reflexivity. Qed.

Lemma bcast_same (b i : nat) : (i < b)%nat -> bcast b i = i.
Proof. intros Hi. unfold bcast. destruct (decide _); lia. Qed.

(** The same when logits and targets have the same batch size. *)
Lemma Categorical_log_prob_entries (p : tensor) (y : itensor) (b n v : nat) :
  shape p = [b; n; v] -> wf p -> ishape y = [b; n] -> iwf y ->
  (0 < b)%nat -> (0 < n)%nat ->
  Forall (fun c => (c < v)%nat) (idata y) ->
  exists lp : tensor,
    Categorical_log_prob p y = Ok lp
    /\ shape lp = [b; n] /\ wf lp
    /\ forall i t, (i < b)%nat -> (t < n)%nat -> entry lp [i; t] = log_prob_spec p y v i t.
Proof.
  intros Hp Wp Hy Wy Hb Hn Hc.
  destruct (Categorical_log_prob_broadcast p y b b n v Hp Wp Hy Wy (or_introl eq_refl)
              Hb Hb Hn Hc) as (lp & Hlp & Hs & Wlp & Hent).
  rewrite bsize_same in *.
  exists lp. split; [exact Hlp|]. split; [exact Hs|]. split; [exact Wlp|].
  intros i t Hi Ht. rewrite (Hent i t Hi Ht), (bcast_same b i Hi). reflexivity.
Qed.

Lemma bsize_pos (d d' : nat) : (0 < d)%nat -> (0 < d')%nat -> (0 < bsize d d')%nat.
Proof. intros. unfold bsize. destruct (decide _); assumption. Qed.

Section LossFacts.
Variable Distribution : Type.
Variable kl_divergence : Distribution -> Distribution -> result tensor.

Local Abbreviation np_loss := (_compute_loss Distribution kl_divergence).

(** On [bp] sequences of logits for [n] targets over [v] classes, [by']
    sequences of targets (one of the two batch sizes may be 1) and a
    divergence of shape [(b', d)], both terms are computed and are the ones
    the specification describes. *)
Lemma compute_loss_terms_broadcast
    (p : tensor) (y : itensor) (qt qc : Distribution) (K : tensor) (bp by' n v b' d : nat) :
  shape p = [bp; n; v] -> wf p -> ishape y = [by'; n] -> iwf y ->
  bp = by' \/ bp = 1%nat \/ by' = 1%nat ->
  (0 < bp)%nat -> (0 < by')%nat -> (0 < n)%nat ->
  Forall (fun c => (c < v)%nat) (idata y) ->
  kl_divergence qt qc = Ok K -> shape K = [b'; d] -> wf K ->
  np_loss p y qt qc
  = Ok (bigsum (bsize by' bp) (fun i =>
          bigsum n (fun t =>
            entry p [bcast bp i; t; ientry y [bcast by' i; t]]
            - ln (bigsum v (fun c => exp (entry p [bcast bp i; t; c])))))
        / INR (bsize by' bp),
        kl_spec K b' d).
Proof.
  intros Hp Wp Hy Wy Hcompat Hbp Hby Hn Hc HK HsK WK.
  destruct (Categorical_log_prob_broadcast p y bp by' n v Hp Wp Hy Wy Hcompat Hbp Hby Hn Hc)
    as (lp & Hlp & Hslp & Wlp & Hent).
  destruct (sum_mean_matrix lp _ n Hslp Wlp) as (s & Hs & Hmean).
  destruct (sum_mean_matrix K b' d HsK WK) as (s' & Hs' & Hmean').
  unfold _compute_loss. rewrite Hlp. cbn [bind]. rewrite Hs. cbn [bind].
  rewrite HK. cbn [bind]. rewrite Hs'. cbn [bind].
  rewrite Hmean, Hmean'. unfold kl_spec.
  rewrite (bigsum_ext (bsize by' bp) _
             (fun i => bigsum n (fun t =>
                entry p [bcast bp i; t; ientry y [bcast by' i; t]]
                - ln (bigsum v (fun c => exp (entry p [bcast bp i; t; c]))))));
    [reflexivity|].
  intros i Hi. apply bigsum_ext. intros t Ht. apply Hent; assumption.
Qed.

(** The same when logits and targets have the same batch size. *)
Lemma compute_loss_terms
    (p : tensor) (y : itensor) (qt qc : Distribution) (K : tensor) (b n v b' d : nat) :
  shape p = [b; n; v] -> wf p -> ishape y = [b; n] -> iwf y ->
  (0 < b)%nat -> (0 < n)%nat ->
  Forall (fun c => (c < v)%nat) (idata y) ->
  kl_divergence qt qc = Ok K -> shape K = [b'; d] -> wf K ->
  np_loss p y qt qc = Ok (ll_spec p y b n v, kl_spec K b' d).
Proof.
  intros Hp Wp Hy Wy Hb Hn Hc HK HsK WK.
  rewrite (compute_loss_terms_broadcast p y qt qc K b b n v b' d Hp Wp Hy Wy
             (or_introl eq_refl) Hb Hb Hn Hc HK HsK WK).
  rewrite bsize_same. unfold ll_spec.
  rewrite (bigsum_ext b _ (fun i => bigsum n (fun t => log_prob_spec p y v i t)));
    [reflexivity|].
  intros i Hi. apply bigsum_ext. intros t Ht.
  rewrite (bcast_same b i Hi). reflexivity.
Qed.

(** C2.  The KL term is computed from [kl_divergence(q_target, q_context)],
    in this order of the operands: it is the sum of the divergence over the
    latent axis, averaged over the batch axis.  (The batches have entries:
    the code raises on logits without entries, and the mean over an empty
    batch is NaN.) *)
Theorem compute_loss_kl
    (p : tensor) (y : itensor) (q_target q_context : Distribution) (K : tensor)
    (bp by' n v b' d : nat) :
  shape p = [bp; n; v] -> wf p -> ishape y = [by'; n] -> iwf y ->
  bp = by' \/ bp = 1%nat \/ by' = 1%nat ->
  (0 < bp)%nat -> (0 < by')%nat -> (0 < n)%nat ->
  Forall (fun c => (c < v)%nat) (idata y) ->
  kl_divergence q_target q_context = Ok K -> shape K = [b'; d] -> wf K -> (0 < b')%nat ->
  rmap snd (np_loss p y q_target q_context)
  = Ok (bigsum b' (fun i => bigsum d (fun j => entry K [i; j])) / INR b').
Proof.
  intros Hp Wp Hy Wy Hcompat Hbp Hby Hn Hc HK HsK WK _.
  rewrite (compute_loss_terms_broadcast p y q_target q_context K bp by' n v b' d
             Hp Wp Hy Wy Hcompat Hbp Hby Hn Hc HK HsK WK).
  reflexivity.
Qed.


End LossFacts.

(** ** The modelled distributions are what they should be *)

Lemma bigsum_scale (n : nat) (f : nat -> R) (k : R) :
  bigsum n (fun i => f i * k) = bigsum n f * k.
Proof.
  revert f; induction n as [|n IH]; intros f.
  - unfold bigsum. simpl. lra.
  - rewrite !bigsum_S, IH. lra.
Qed.

Lemma bigsum_exp_pos (n : nat) (l : nat -> R) :
  (0 < n)%nat -> 0 < bigsum n (fun c => exp (l c)).
Proof.
  revert l; induction n as [|n IH]; intros l Hn; [lia|].
  rewrite bigsum_S. pose proof (exp_pos (l 0%nat)).
  destruct n as [|n].
  - unfold bigsum. simpl. lra.
  - specialize (IH (fun c => l (S c)) ltac:(lia)). simpl in IH. lra.
Qed.

(** The normalised logits [l - logsumexp(l)] are the logarithms of
    probabilities: their exponentials add up to one. *)
Lemma categorical_probabilities_sum_to_one (v : nat) (l : nat -> R) :
  (0 < v)%nat ->
  bigsum v (fun c => exp (l c - ln (bigsum v (fun c' => exp (l c'))))) = 1.
Proof.
  intros Hv. pose proof (bigsum_exp_pos v l Hv) as Hpos.
  set (S := bigsum v (fun c' => exp (l c'))) in *.
  rewrite (bigsum_ext v _ (fun c => exp (l c) * / S)).
  - rewrite bigsum_scale. fold S. field. lra.
  - intros c _. unfold Rminus. rewrite exp_plus, exp_Ropp, exp_ln by exact Hpos.
    reflexivity.
Qed.

(** The divergence of a normal distribution from itself is zero ... *)
Lemma kl_entry_same (m s : R) : s <> 0 -> kl_entry m s m s = 0.
Proof.
  intros Hs. unfold kl_entry.
  replace (s / s) with 1 by (field; exact Hs).
  replace ((m - m) / s) with 0 by (field; exact Hs).
  replace (1 ^ 2) with 1 by ring. rewrite ln_1. ring.
Qed.

Lemma ln2_lt_1 : ln 2 < 1.
Proof.
  rewrite <- (ln_exp 1). apply ln_increasing; [lra|].
  pose proof (exp_ineq1 1). lra.
Qed.

(** ... and the divergence is not symmetric: the order of the operands of
    [kl_divergence] matters. *)
Lemma kl_entry_asymmetric : kl_entry 0 1 1 2 <> kl_entry 1 2 0 1.
Proof.
  unfold kl_entry.
  replace ((1 / 2) ^ 2) with (/ (2 * 2)) by field.
  replace (((0 - 1) / 2) ^ 2) with (/ 4) by field.
  replace ((2 / 1) ^ 2) with (2 * 2) by field.
  replace (((1 - 0) / 1) ^ 2) with 1 by field.
  rewrite ln_Rinv by lra. rewrite ln_mult by lra.
  pose proof ln2_lt_1. lra.
Qed.

(** ** Concrete instances *)

Lemma forward_loss_and_record_witness :
  exists (ll kl : R) (record : gmap string R),
    forward Normal kl_normal_normal model0 sample0 true = Ok (- ll + kl, 1%Z, record)
    /\ record !! "loss" = Some (- ll + kl)
    /\ record !! "ll" = Some (- ll)
    /\ record !! "kl" = Some kl
    /\ record !! "ntokens" = Some 2
    /\ record !! "nsentences" = Some 1
    /\ record !! "sample_size" = Some 1
    /\ dom record
       = ({["loss"; "ll"; "kl"; "ntokens"; "nsentences"; "sample_size"]} : gset string).
Proof.
  eexists _, _.
  apply (forward_loss_and_record Normal kl_normal_normal model0 sample0 true
           p_y_pred0 (zeros [1; 2]%nat) q_context0 (Some q_target0)).
  - reflexivity.
  - reflexivity.
Defined.

Lemma forward_absent_target_witness :
  forward Normal kl_normal_normal model_absent sample0 true
  = forward Normal kl_normal_normal model_explicit sample0 true.
Proof.
  apply (forward_absent_target Normal kl_normal_normal model_absent model_explicit sample0 true
           p_y_pred0 (zeros [1; 2]%nat) q_context0); reflexivity.
Defined.

Lemma compute_loss_kl_witness :
  rmap snd (_compute_loss Normal kl_normal_normal p_y_pred0 y_target0 q_target0 q_context0)
  = Ok (bigsum 1 (fun i => bigsum 2 (fun j => entry K0 [i; j])) / INR 1).
Proof.
  apply (compute_loss_kl Normal kl_normal_normal p_y_pred0 y_target0 q_target0 q_context0 K0
           1 1 2 2 1 2).
  - reflexivity.
  - reflexivity.
  - reflexivity.
  - reflexivity.
  - left. reflexivity.
  - lia.
  - lia.
  - lia.
  - repeat constructor.
  - reflexivity.
  - reflexivity.
  - reflexivity.
  - lia.
Defined.


Lemma logs0_totals :
  total "loss" logs0 = 4 + (6 + 0) /\ total "ll" logs0 = 3 + (0 + 0)
  /\ total "kl" logs0 = 1 + (0 + 0) /\ total "sample_size" logs0 = 2 + (3 + 0).
Proof. unfold total, logs0. cbn [map Rsum]. by simplify_map_eq. Qed.

Lemma reduce_metrics_logs_witness :
  reduce_metrics logs0
  = Ok [ {| key := "loss";
            value := total "loss" logs0 / total "sample_size" logs0 / ln 2;
            weight := total "sample_size" logs0; round := 3 |};
         {| key := "ll";
            value := total "ll" logs0 / total "sample_size" logs0 / ln 2;
            weight := total "sample_size" logs0; round := 3 |};
         {| key := "kl";
            value := total "kl" logs0 / total "sample_size" logs0 / ln 2;
            weight := total "sample_size" logs0; round := 3 |} ].
Proof.
  apply (reduce_metrics_logs logs0).
  destruct logs0_totals as (_ & _ & _ & ->). lra.
Defined.

(** Two points of one batch element, swapped. *)
Lemma MLPEncoder_permutation_equivariant_witness :
  let enc := Canonical.MLPEncoder_init 1 1 (DInt 2) 2 ones_params in
  let x := {| shape := [1; 2; 1]%nat; data := [1; 2] |} in
  let y := {| shape := [1; 2; 1]%nat; data := [3; 4] |} in
  Canonical.MLPEncoder_forward enc (permute_points [1; 0]%nat x) (permute_points [1; 0]%nat y)
  = rmap (permute_points [1; 0]%nat) (Canonical.MLPEncoder_forward enc x y).
Proof.
  apply (MLPEncoder_permutation_equivariant 1 1 (DInt 2) 2 ones_params
           {| shape := [1; 2; 1]%nat; data := [1; 2] |}
           {| shape := [1; 2; 1]%nat; data := [3; 4] |}
           [1; 0]%nat 1 2 1 1).
  - reflexivity.
  - reflexivity.
  - reflexivity.
  - reflexivity.
  - apply perm_swap.
Defined.

(** * Further properties of the code *)

(** ** [reduce_metrics] *)

Lemma reduce_metrics_totals (logs logs' : list (gmap string R)) :
  total "loss" logs = total "loss" logs' ->
  total "ll" logs = total "ll" logs' ->
  total "kl" logs = total "kl" logs' ->
  total "sample_size" logs = total "sample_size" logs' ->
  reduce_metrics logs = reduce_metrics logs'.
Proof.
  intros H1 H2 H3 H4. unfold reduce_metrics.
  rewrite !py_sum_get_total, H1, H2, H3, H4. reflexivity.
Qed.

Lemma reduce_metrics_value (logs : list (gmap string R)) :
  total "sample_size" logs <> 0 ->
  reduce_metrics logs
  = Ok [ {| key := "loss";
            value := total "loss" logs / total "sample_size" logs / ln 2;
            weight := total "sample_size" logs; round := 3 |};
         {| key := "ll";
            value := total "ll" logs / total "sample_size" logs / ln 2;
            weight := total "sample_size" logs; round := 3 |};
         {| key := "kl";
            value := total "kl" logs / total "sample_size" logs / ln 2;
            weight := total "sample_size" logs; round := 3 |} ].
Proof.
  intros Hne. unfold reduce_metrics. rewrite !py_sum_get_total.
  rewrite !(py_div_ok _ _ Hne). cbn [bind].
  rewrite !(py_div_ok _ _ ln2_neq_0). reflexivity.
Qed.

Lemma total_app (k : string) (l1 l2 : list (gmap string R)) :
  total k (l1 ++ l2) = total k l1 + total k l2.
Proof.
  unfold total. induction l1 as [|a l1 IH]; simpl; [lra|]. rewrite IH. lra.
Qed.

Lemma total_permutation (k : string) (logs logs' : list (gmap string R)) :
  Permutation logs logs' -> total k logs = total k logs'.
Proof.
  unfold total. induction 1 as [|a l l' _ IH|a c l|l l' l'' _ IH1 _ IH2]; simpl.
  - reflexivity.
  - rewrite IH. reflexivity.
  - lra.
  - congruence.
Qed.

(** X1.  When no record has a [loss] or a [sample_size] field, as for an
    empty sequence of records, both sums are the integer 0 that [sum] starts
    from, so the first division is [0 / 0] on Python integers: it raises
    ZeroDivisionError and nothing is logged. *)
Theorem reduce_metrics_zero_total (logs : list (gmap string R)) :
  Forall (fun log : gmap string R => log !! "loss" = None /\ log !! "sample_size" = None) logs ->
  reduce_metrics logs = Err ZeroDivisionError.
Proof.
  intros Hall.
  assert (H0 : total "sample_size" logs = 0).
  { unfold total. induction Hall as [|log logs' [_ Hs] _ IH]; [reflexivity|].
    cbn [map Rsum]. rewrite Hs. simpl in *. rewrite IH. lra. }
  unfold reduce_metrics. rewrite !py_sum_get_total, H0.
  unfold py_div at 1. destruct (Req_dec_T 0 0) as [_|H]; [reflexivity|contradiction].
Qed.

Lemma reduce_metrics_zero_total_witness :
  reduce_metrics [∅; {["ntokens" := 5]}] = Err ZeroDivisionError.
Proof.
  apply (reduce_metrics_zero_total [∅; {["ntokens" := 5]}]).
  repeat constructor.
Defined.

(** X2.  The order of the records does not matter. *)
Theorem reduce_metrics_order (logs logs' : list (gmap string R)) :
  Permutation logs logs' -> reduce_metrics logs = reduce_metrics logs'.
Proof.
  intros Hp. apply reduce_metrics_totals; apply total_permutation, Hp.
Qed.

Lemma reduce_metrics_order_witness : reduce_metrics logs0 = reduce_metrics (rev logs0).
Proof. apply (reduce_metrics_order logs0 (rev logs0)). apply perm_swap. Defined.

(** X3.  Reducing the records of two groups of workers together gives, for
    each metric, the mean of the two separately reduced values weighted by
    their sample sizes, with the sample sizes added up. *)
Theorem reduce_metrics_app (logs1 logs2 : list (gmap string R)) :
  0 < total "sample_size" logs1 -> 0 < total "sample_size" logs2 ->
  exists r1 r2 : list LogScalar,
    reduce_metrics logs1 = Ok r1
    /\ reduce_metrics logs2 = Ok r2
    /\ reduce_metrics (logs1 ++ logs2) = Ok (zip_with merge_scalar r1 r2).
Proof.
  intros H1 H2.
  rewrite (reduce_metrics_value logs1), (reduce_metrics_value logs2) by lra.
  rewrite reduce_metrics_value by (rewrite total_app; lra).
  eexists _, _. split; [reflexivity|]. split; [reflexivity|].
  pose proof ln2_neq_0 as Hln.
  cbn [zip_with]. unfold merge_scalar. cbn [key value weight round].
  rewrite !total_app.
  repeat (f_equal; try (field; lra)).
Qed.

Lemma reduce_metrics_app_witness :
  exists r1 r2 : list LogScalar,
    reduce_metrics [<["sample_size" := 2]> (<["loss" := 4]> ∅)] = Ok r1
    /\ reduce_metrics [<["sample_size" := 3]> (<["loss" := 6]> ∅)] = Ok r2
    /\ reduce_metrics ([<["sample_size" := 2]> (<["loss" := 4]> ∅)]
                       ++ [<["sample_size" := 3]> (<["loss" := 6]> ∅)])
       = Ok (zip_with merge_scalar r1 r2).
Proof.
  apply (reduce_metrics_app [<["sample_size" := 2]> (<["loss" := 4]> ∅)]
                            [<["sample_size" := 3]> (<["loss" := 6]> ∅)]).
  - unfold total. cbn [map Rsum]. simplify_map_eq. lra.
  - unfold total. cbn [map Rsum]. simplify_map_eq. lra.
Defined.

Lemma total_delete (k k' : string) (logs : list (gmap string R)) :
  k <> k' -> total k' (map (delete k) logs) = total k' logs.
Proof.
  intros Hk. unfold total. rewrite map_map. f_equal. apply map_ext.
  intros log. now rewrite lookup_delete_ne.
Qed.

(** X4.  Only the fields ["loss"], ["ll"], ["kl"] and ["sample_size"] are
    read: removing any other field (["ntokens"], ["nsentences"], ...) from
    the records changes nothing. *)
Theorem reduce_metrics_other_fields (k : string) (logs : list (gmap string R)) :
  k <> "loss" -> k <> "ll" -> k <> "kl" -> k <> "sample_size" ->
  reduce_metrics (map (delete k) logs) = reduce_metrics logs.
Proof.
  intros H1 H2 H3 H4. apply reduce_metrics_totals; apply total_delete; assumption.
Qed.

Lemma reduce_metrics_other_fields_witness :
  reduce_metrics (map (delete "ntokens") logs0) = reduce_metrics logs0.
Proof. apply (reduce_metrics_other_fields "ntokens" logs0); discriminate. Defined.

(** ** [forward] and [_compute_loss] *)

Section CriterionFacts.
Variable Distribution : Type.
Variable kl_divergence : Distribution -> Distribution -> result tensor.

Local Abbreviation fwd := (forward Distribution kl_divergence).
Local Abbreviation loss_terms := (_compute_loss Distribution kl_divergence).

(** The record [forward] builds, entry by entry. *)
Lemma forward_value
    (model : Model Distribution) (sample : Sample) (reduce : bool)
    (p r : tensor) (qc : Distribution) (qt : option Distribution) (ll kl : R) :
  model (src_tokens (net_input sample)) = (p, r, qc, qt) ->
  loss_terms p (target sample) (default qc qt) qc = Ok (ll, kl) ->
  fwd model sample reduce
  = Ok (- ll + kl, nsentences sample,
        <["sample_size" := IZR (nsentences sample)]>
          (<["nsentences" := IZR (nsentences sample)]>
             (<["ntokens" := IZR (ntokens sample)]>
                (<["kl" := kl]> (<["ll" := - ll]> (<["loss" := - ll + kl]> ∅)))))).
Proof.
  intros Hmodel Hloss. unfold forward. rewrite Hmodel.
  replace (match qt with None => qc | Some q => q end) with (default qc qt)
    by (destruct qt; reflexivity).
  rewrite Hloss. reflexivity.
Qed.

Lemma forward_error
    (model : Model Distribution) (sample : Sample) (reduce : bool)
    (p r : tensor) (qc : Distribution) (qt : option Distribution) (e : error) :
  model (src_tokens (net_input sample)) = (p, r, qc, qt) ->
  loss_terms p (target sample) (default qc qt) qc = Err e ->
  fwd model sample reduce = Err e.
Proof.
  intros Hmodel Hloss. unfold forward. rewrite Hmodel.
  replace (match qt with None => qc | Some q => q end) with (default qc qt)
    by (destruct qt; reflexivity).
  rewrite Hloss. reflexivity.
Qed.

(** X5.  Reducing the one record a forward pass returns logs the loss, the
    negated log-likelihood and the KL term of that pass, each divided by the
    sample's [nsentences] and by [ln 2], weighted by [nsentences]. *)
Theorem forward_then_reduce_metrics
    (model : Model Distribution) (sample : Sample) (reduce : bool)
    (p r : tensor) (qc : Distribution) (qt : option Distribution) (ll kl : R) :
  model (src_tokens (net_input sample)) = (p, r, qc, qt) ->
  loss_terms p (target sample) (default qc qt) qc = Ok (ll, kl) ->
  (0 < nsentences sample)%Z ->
  exists (loss : R) (record : gmap string R),
    fwd model sample reduce = Ok (loss, nsentences sample, record)
    /\ reduce_metrics [record]
       = Ok [ {| key := "loss";
                 value := (- ll + kl) / IZR (nsentences sample) / ln 2;
                 weight := IZR (nsentences sample); round := 3 |};
              {| key := "ll";
                 value := (- ll) / IZR (nsentences sample) / ln 2;
                 weight := IZR (nsentences sample); round := 3 |};
              {| key := "kl";
                 value := kl / IZR (nsentences sample) / ln 2;
                 weight := IZR (nsentences sample); round := 3 |} ].
Proof.
  intros Hmodel Hloss Hn.
  rewrite (forward_value model sample reduce p r qc qt ll kl Hmodel Hloss).
  eexists _, _. split; [reflexivity|].
  assert (Hpos : 0 < IZR (nsentences sample)) by (apply IZR_lt in Hn; exact Hn).
  set (record := <["sample_size" := _]> _).
  assert (Ht : total "loss" [record] = - ll + kl /\ total "ll" [record] = - ll
               /\ total "kl" [record] = kl
               /\ total "sample_size" [record] = IZR (nsentences sample)).
  { unfold total, record. cbn [map Rsum]. simplify_map_eq. repeat split; lra. }
  destruct Ht as (H1 & H2 & H3 & H4).
  rewrite reduce_metrics_value by (rewrite H4; lra).
  rewrite H1, H2, H3, H4. reflexivity.
Qed.

(** The [reduce] flag and the model's second output are ignored. *)
Theorem forward_ignores_reduce_and_r
    (model model' : Model Distribution) (sample : Sample) (reduce reduce' : bool)
    (p r r' : tensor) (qc : Distribution) (qt : option Distribution) :
  model (src_tokens (net_input sample)) = (p, r, qc, qt) ->
  model' (src_tokens (net_input sample)) = (p, r', qc, qt) ->
  fwd model sample reduce = fwd model' sample reduce'.
Proof. intros H H'. unfold forward. rewrite H, H'. reflexivity. Qed.

(** X6.  When prediction and ground truth disagree in the number of targets
    (and neither has a single target, which [torch] would broadcast), the
    forward pass raises before any divergence is computed.  (The logits have
    entries: on logits without entries the constructor of the distribution
    raises first.) *)
Theorem forward_target_count_mismatch
    (model : Model Distribution) (sample : Sample) (reduce : bool)
    (p r : tensor) (qc : Distribution) (qt : option Distribution) (b n v b' n' : nat) :
  model (src_tokens (net_input sample)) = (p, r, qc, qt) ->
  shape p = [b; n; v] -> ishape (target sample) = [b'; n'] ->
  (0 < b)%nat -> (0 < n)%nat -> (0 < v)%nat ->
  (n' <> n /\ n' <> 1 /\ n <> 1)%nat ->
  fwd model sample reduce = Err ShapeMismatch.
Proof.
  intros Hmodel Hp Hy Hb Hn0 Hv (Hn & Hn1 & Hn2).
  apply (forward_error model sample reduce p r qc qt ShapeMismatch Hmodel).
  unfold _compute_loss, Categorical_log_prob. rewrite Hp, Hy.
  cbn [last_dim rev app removelast].
  destruct (decide _) as [H0|_]; [cbn in H0; nia|].
  unfold broadcast_shapes. cbn [rev app]. cbn [broadcast_rev].
  destruct (decide (n' = n)); [contradiction|].
  destruct (decide (n' = 1%nat)); [contradiction|].
  destruct (decide (n = 1%nat)); [contradiction|].
  repeat case_decide; reflexivity.
Qed.

End CriterionFacts.

(** A class index beyond the last class is refused by the validation of the
    targets. *)
Lemma Categorical_log_prob_out_of_range (p : tensor) (y : itensor) (b n v : nat) :
  shape p = [b; n; v] -> ishape y = [b; n] ->
  (0 < b)%nat -> (0 < n)%nat -> (0 < v)%nat ->
  Exists (fun c => (v <= c)%nat) (idata y) ->
  Categorical_log_prob p y = Err ValueError.
Proof.
  intros Hp Hy Hb Hn Hv Hex.
  unfold Categorical_log_prob. rewrite Hp, Hy. cbn [last_dim rev app removelast].
  destruct (decide _) as [H0|_]; [cbn in H0; nia|].
  rewrite (broadcast_shapes_matrix b b n (or_introl eq_refl)).
  destruct (forallb _ (idata y)) eqn:Hall; [|reflexivity].
  exfalso. rewrite forallb_forall in Hall.
  apply Exists_exists in Hex as (c & Hin & Hc).
  apply list_elem_of_In, Hall, Nat.ltb_lt in Hin. lia.
Qed.

Lemma bigsum_nonpos (n : nat) (f : nat -> R) :
  (forall i, (i < n)%nat -> f i <= 0) -> bigsum n f <= 0.
Proof.
  revert f; induction n as [|n IH]; intros f Hf.
  - unfold bigsum. simpl. lra.
  - rewrite bigsum_S. pose proof (Hf 0%nat ltac:(lia)).
    pose proof (IH (fun i => f (S i)) ltac:(intros i Hi; apply Hf; lia)). simpl in *. lra.
Qed.

Lemma bigsum_nonneg (n : nat) (f : nat -> R) :
  (forall i, (i < n)%nat -> 0 <= f i) -> 0 <= bigsum n f.
Proof.
  revert f; induction n as [|n IH]; intros f Hf.
  - unfold bigsum. simpl. lra.
  - rewrite bigsum_S. pose proof (Hf 0%nat ltac:(lia)).
    pose proof (IH (fun i => f (S i)) ltac:(intros i Hi; apply Hf; lia)). simpl in *. lra.
Qed.

Lemma bigsum_term_le (n c : nat) (f : nat -> R) :
  (c < n)%nat -> (forall i, 0 <= f i) -> f c <= bigsum n f.
Proof.
  revert c f; induction n as [|n IH]; intros c f Hc Hf; [lia|].
  rewrite bigsum_S. destruct c as [|c].
  - pose proof (bigsum_nonneg n (fun i => f (S i)) ltac:(intros; apply Hf)). simpl in *. lra.
  - pose proof (IH c (fun i => f (S i)) ltac:(lia) ltac:(intros; apply Hf)).
    pose proof (Hf 0%nat). simpl in *. lra.
Qed.

(** A log-probability is never positive. *)
Lemma log_softmax_nonpos (v c : nat) (l : nat -> R) :
  (c < v)%nat -> l c - ln (bigsum v (fun c' => exp (l c'))) <= 0.
Proof.
  intros Hc.
  assert (Hpos : 0 < bigsum v (fun c' => exp (l c'))) by (apply bigsum_exp_pos; lia).
  pose proof (bigsum_term_le v c (fun c' => exp (l c')) Hc
                ltac:(intros i; left; apply exp_pos)) as Hle.
  simpl in Hle. rewrite <- (exp_ln _ Hpos) in Hle at 1.
  destruct Hle as [Hlt|Heq].
  - apply exp_lt_inv in Hlt. lra.
  - apply exp_inv in Heq. lra.
Qed.

Lemma ll_spec_nonpos (p : tensor) (y : itensor) (b n v : nat) :
  ishape y = [b; n] -> iwf y -> Forall (fun c => (c < v)%nat) (idata y) -> (0 < b)%nat ->
  ll_spec p y b n v <= 0.
Proof.
  intros Hy Wy Hc Hb. unfold ll_spec.
  assert (Hly : length (idata y) = (b * n)%nat) by (rewrite Wy, Hy; cbn; lia).
  assert (Hsum : bigsum b (fun i => bigsum n (fun t => log_prob_spec p y v i t)) <= 0).
  { apply bigsum_nonpos. intros i Hi. apply bigsum_nonpos. intros t Ht.
    unfold log_prob_spec.
    apply (log_softmax_nonpos v (ientry y [i; t]) (fun c => entry p [i; t; c])).
    unfold ientry, offset. rewrite Hy. cbn [combine fold_left fst snd].
    rewrite Forall_forall in Hc. apply Hc, list_elem_of_In, nth_In. nia. }
  assert (HB : 0 < INR b) by (apply lt_0_INR; exact Hb).
  apply Rmult_le_reg_r with (r := INR b); [exact HB|].
  unfold Rdiv. rewrite Rmult_assoc, Rinv_l by lra. lra.
Qed.

Section LossEdgeFacts.
Variable Distribution : Type.
Variable kl_divergence : Distribution -> Distribution -> result tensor.

Local Abbreviation loss_terms' := (_compute_loss Distribution kl_divergence).

(** X7.  On logits with entries, a target whose class index is not below the
    number of classes is refused by the validation of the targets:
    [_compute_loss] raises ValueError and returns no loss. *)
Theorem compute_loss_class_out_of_range
    (p : tensor) (y : itensor) (qt qc : Distribution) (b n v : nat) :
  shape p = [b; n; v] -> wf p -> ishape y = [b; n] -> iwf y ->
  (0 < b)%nat -> (0 < n)%nat -> (0 < v)%nat ->
  Exists (fun c => (v <= c)%nat) (idata y) ->
  loss_terms' p y qt qc = Err ValueError.
Proof.
  intros Hp _ Hy _ Hb Hn Hv Hex. unfold _compute_loss.
  rewrite (Categorical_log_prob_out_of_range p y b n v Hp Hy Hb Hn Hv Hex). reflexivity.
Qed.

(** X8.  A divergence tensor without a second axis makes [sum(dim=1)], and
    so [_compute_loss], raise IndexError, after the log-likelihood of a
    non-empty batch has been computed. *)
Theorem compute_loss_kl_rank
    (p : tensor) (y : itensor) (qt qc : Distribution) (K : tensor) (b n v : nat) :
  shape p = [b; n; v] -> wf p -> ishape y = [b; n] -> iwf y ->
  (0 < b)%nat -> (0 < n)%nat ->
  Forall (fun c => (c < v)%nat) (idata y) ->
  kl_divergence qt qc = Ok K -> (length (shape K) < 2)%nat ->
  loss_terms' p y qt qc = Err IndexError.
Proof.
  intros Hp Wp Hy Wy Hb Hn Hc HK Hrank.
  destruct (Categorical_log_prob_entries p y b n v Hp Wp Hy Wy Hb Hn Hc)
    as (lp & Hlp & Hslp & Wlp & _).
  destruct (sum_mean_matrix lp b n Hslp Wlp) as (s & Hs & _).
  unfold _compute_loss. rewrite Hlp. cbn [bind]. rewrite Hs. cbn [bind].
  rewrite HK. cbn [bind]. unfold tensor_sum.
  destruct (decide _) as [H|_]; [lia|reflexivity].
Qed.

(** X9.  The log-likelihood term is never positive, so the ["ll"] entry of
    the logging record (its negation) is never negative. *)
Theorem compute_loss_log_likelihood_nonpos
    (p : tensor) (y : itensor) (qt qc : Distribution) (K : tensor) (b n v b' d : nat) :
  shape p = [b; n; v] -> wf p -> ishape y = [b; n] -> iwf y ->
  Forall (fun c => (c < v)%nat) (idata y) -> (0 < b)%nat -> (0 < n)%nat ->
  kl_divergence qt qc = Ok K -> shape K = [b'; d] -> wf K ->
  exists ll kl : R, loss_terms' p y qt qc = Ok (ll, kl) /\ ll <= 0.
Proof.
  intros Hp Wp Hy Wy Hc Hb Hn HK HsK WK.
  rewrite (compute_loss_terms Distribution kl_divergence p y qt qc K b n v b' d
             Hp Wp Hy Wy Hb Hn Hc HK HsK WK).
  eexists _, _. split; [reflexivity|].
  apply ll_spec_nonpos; assumption.
Qed.

End LossEdgeFacts.

(** ** The loss with normal latent distributions *)

Lemma ln_le_minus_1 (r : R) : 0 < r -> ln r <= r - 1.
Proof.
  intros Hr. destruct (Req_dec r 1) as [->|Hne].
  - rewrite ln_1. lra.
  - assert (Hln : ln r <> 0).
    { intros H0. apply Hne. apply ln_inv; [exact Hr|lra|]. now rewrite ln_1. }
    pose proof (exp_ineq1 (ln r) Hln) as H. rewrite exp_ln in H by exact Hr. lra.
Qed.

Lemma kl_entry_nonneg (m1 s1 m2 s2 : R) : 0 < s1 -> 0 < s2 -> 0 <= kl_entry m1 s1 m2 s2.
Proof.
  intros H1 H2. unfold kl_entry. cbv zeta.
  assert (Hq : 0 < s1 / s2) by (apply Rdiv_lt_0_compat; assumption).
  assert (Hr : 0 < (s1 / s2) ^ 2) by (apply pow_lt; exact Hq).
  pose proof (ln_le_minus_1 _ Hr).
  pose proof (pow2_ge_0 ((m1 - m2) / s2)). lra.
Qed.

Lemma Forall_zip_with {A B C : Type} (P : A -> Prop) (Q : B -> Prop) (T : C -> Prop)
    (f : A -> B -> C) (u : list A) (v : list B) :
  (forall a c, P a -> Q c -> T (f a c)) ->
  Forall P u -> Forall Q v -> Forall T (zip_with f u v).
Proof.
  intros Hf Hu; revert v; induction Hu as [|a u Ha _ IH]; intros v Hv; simpl; [constructor|].
  destruct Hv as [|c v Hc Hv]; constructor; [apply Hf; assumption|apply IH; assumption].
Qed.

Lemma zip_with_diag_map {A C : Type} (f : A -> A -> C) (u : list A) :
  zip_with f u u = map (fun a => f a a) u.
Proof. induction u as [|a u IH]; simpl; [reflexivity|]. now rewrite IH. Qed.

Lemma Forall_scale_pairs (L S : list R) :
  Forall (fun s => 0 < s) S -> Forall (fun a : R * R => 0 < snd a) (combine L S).
Proof.
  intros HS.
  apply (Forall_impl _ _ _ (Forall_combine (fun _ => True) _ L S
                               ltac:(apply Forall_forall; intros; exact I) HS)).
  intros a [_ H]. exact H.
Qed.

(** The divergence of two valid normal distributions of one shape: a
    well-formed tensor of that shape without a negative entry. *)
Lemma kl_normal_normal_nonneg (p q : Normal) (b d : nat) :
  normal_ok p b d -> normal_ok q b d ->
  exists K : tensor,
    kl_normal_normal p q = Ok K /\ shape K = [b; d] /\ wf K
    /\ Forall (fun k => 0 <= k) (data K).
Proof.
  intros (Hlp & Hsp & Wlp & Wsp & Pp) (Hlq & Hsq & Wlq & Wsq & Pq).
  unfold kl_normal_normal.
  destruct (decide _) as [_|H]; [|exfalso; apply H; repeat split; congruence].
  eexists. split; [reflexivity|]. cbn [shape data]. split; [exact Hlp|]. split.
  - unfold wf in *. cbn [shape data]. rewrite Hlp in *. rewrite Hsp in Wsp.
    rewrite Hlq in Wlq. rewrite Hsq in Wsq.
    rewrite zip_with_length_same; rewrite !length_combine; lia.
  - apply (Forall_zip_with (fun a : R * R => 0 < snd a) (fun c : R * R => 0 < snd c)).
    + intros a c Ha Hc. apply kl_entry_nonneg; assumption.
    + apply Forall_scale_pairs, Pp.
    + apply Forall_scale_pairs, Pq.
Qed.

(** The divergence of a valid normal distribution from itself: all zero. *)
Lemma kl_normal_normal_self (q : Normal) (b d : nat) :
  normal_ok q b d ->
  exists K : tensor,
    kl_normal_normal q q = Ok K /\ shape K = [b; d] /\ wf K
    /\ Forall (fun k => k = 0) (data K).
Proof.
  intros (Hl & Hs & Wl & Ws & Pq).
  unfold kl_normal_normal.
  destruct (decide _) as [_|H]; [|exfalso; apply H; repeat split; congruence].
  eexists. split; [reflexivity|]. cbn [shape data]. split; [exact Hl|]. split.
  - unfold wf in *. cbn [shape data]. rewrite Hl in *. rewrite Hs in Ws.
    rewrite zip_with_length_same; rewrite !length_combine; lia.
  - rewrite zip_with_diag_map. apply Forall_map.
    apply (Forall_impl _ _ _ (Forall_scale_pairs _ _ Pq)).
    intros a Ha. simpl. apply kl_entry_same. lra.
Qed.

Lemma nth_Forall_default {A : Type} (P : A -> Prop) (l : list A) (i : nat) (d : A) :
  Forall P l -> P d -> P (nth i l d).
Proof.
  intros Hl Hd. destruct (Nat.lt_ge_cases i (length l)) as [Hi|Hi].
  - rewrite Forall_forall in Hl. apply Hl, list_elem_of_In, nth_In, Hi.
  - now rewrite nth_overflow.
Qed.

Lemma kl_spec_nonneg (K : tensor) (b d : nat) :
  Forall (fun k => 0 <= k) (data K) -> (0 < b)%nat -> 0 <= kl_spec K b d.
Proof.
  intros HK Hb. unfold kl_spec.
  assert (HB : 0 < INR b) by (apply lt_0_INR; exact Hb).
  assert (Hsum : 0 <= bigsum b (fun i => bigsum d (fun j => entry K [i; j]))).
  { apply bigsum_nonneg. intros i _. apply bigsum_nonneg. intros j _.
    unfold entry. apply (nth_Forall_default (fun k => 0 <= k)); [exact HK|lra]. }
  apply Rmult_le_reg_r with (r := INR b); [exact HB|].
  unfold Rdiv. rewrite Rmult_assoc, Rinv_l by lra. lra.
Qed.

Lemma kl_spec_zero (K : tensor) (b d : nat) :
  Forall (fun k => k = 0) (data K) -> kl_spec K b d = 0.
Proof.
  intros HK. unfold kl_spec.
  assert (H0 : bigsum b (fun i => bigsum d (fun j => entry K [i; j])) = 0).
  { apply Rle_antisym.
    - apply bigsum_nonpos. intros i _. apply bigsum_nonpos. intros j _.
      unfold entry. apply (nth_Forall_default (fun k => k <= 0)); [|lra].
      apply (Forall_impl _ _ _ HK). intros k ->. lra.
    - apply bigsum_nonneg. intros i _. apply bigsum_nonneg. intros j _.
      unfold entry. apply (nth_Forall_default (fun k => 0 <= k)); [|lra].
      apply (Forall_impl _ _ _ HK). intros k ->. lra. }
  rewrite H0. unfold Rdiv. apply Rmult_0_l.
Qed.

(** X10.  When the model gives no [q_target] and [q_context] is a valid
    normal distribution (batches and targets not empty), the KL term is
    zero: the loss is the negated log-likelihood alone, and the record says
    so. *)
Theorem forward_absent_target_normal
    (model : Model Normal) (sample : Sample) (reduce : bool)
    (p r : tensor) (qc : Normal) (b n v b' d : nat) :
  model (src_tokens (net_input sample)) = (p, r, qc, None) ->
  shape p = [b; n; v] -> wf p ->
  ishape (target sample) = [b; n] -> iwf (target sample) ->
  Forall (fun c => (c < v)%nat) (idata (target sample)) ->
  normal_ok qc b' d -> (0 < b)%nat -> (0 < n)%nat -> (0 < b')%nat ->
  exists record : gmap string R,
    forward Normal kl_normal_normal model sample reduce
    = Ok (- ll_spec p (target sample) b n v, nsentences sample, record)
    /\ record !! "kl" = Some 0
    /\ record !! "loss" = record !! "ll".
Proof.
  intros Hmodel Hp Wp Hy Wy Hc Hq Hb Hn _.
  destruct (kl_normal_normal_self qc b' d Hq) as (K & HK & HsK & WK & H0).
  pose proof (compute_loss_terms Normal kl_normal_normal p (target sample) qc qc K
                b n v b' d Hp Wp Hy Wy Hb Hn Hc HK HsK WK) as Hloss.
  rewrite (kl_spec_zero K b' d H0) in Hloss.
  rewrite (forward_value Normal kl_normal_normal model sample reduce p r qc None _ _
             Hmodel Hloss).
  rewrite Rplus_0_r. eexists. split; [reflexivity|]. by simplify_map_eq.
Qed.

(** X11.  With valid normal latent distributions and a non-empty batch the
    loss is never negative: it is a negated log-probability plus a
    divergence. *)
Theorem forward_loss_nonneg
    (model : Model Normal) (sample : Sample) (reduce : bool)
    (p r : tensor) (qc : Normal) (qt : option Normal) (b n v b' d : nat) :
  model (src_tokens (net_input sample)) = (p, r, qc, qt) ->
  shape p = [b; n; v] -> wf p ->
  ishape (target sample) = [b; n] -> iwf (target sample) ->
  Forall (fun c => (c < v)%nat) (idata (target sample)) ->
  normal_ok qc b' d -> normal_ok (default qc qt) b' d ->
  (0 < b)%nat -> (0 < n)%nat -> (0 < b')%nat ->
  exists (loss : R) (record : gmap string R),
    forward Normal kl_normal_normal model sample reduce
    = Ok (loss, nsentences sample, record)
    /\ 0 <= loss.
Proof.
  intros Hmodel Hp Wp Hy Wy Hc Hqc Hqt Hb Hn Hb'.
  destruct (kl_normal_normal_nonneg (default qc qt) qc b' d Hqt Hqc)
    as (K & HK & HsK & WK & Hpos).
  pose proof (compute_loss_terms Normal kl_normal_normal p (target sample) (default qc qt) qc K
                b n v b' d Hp Wp Hy Wy Hb Hn Hc HK HsK WK) as Hloss.
  rewrite (forward_value Normal kl_normal_normal model sample reduce p r qc qt _ _
             Hmodel Hloss).
  eexists _, _. split; [reflexivity|].
  pose proof (ll_spec_nonpos p (target sample) b n v Hy Wy Hc Hb).
  pose proof (kl_spec_nonneg K b' d Hpos Hb'). lra.
Qed.

(** ** The MLP encoder: which inputs it takes, and what it does to each
    point *)





(** X13.  Inputs of rank 3 that disagree on the batch or on the point
    dimension are refused at the concatenation.  So is, with an IndexError,
    a first input of rank 1 or 2, which has no dimension 2, unless it is the
    empty tensor of shape [(0,)], which [torch.cat] skips.  Two such empty
    tensors are concatenated to an empty tensor, which the first linear
    layer then refuses. *)
Theorem MLPEncoder_forward_cat_errors
    (x_dim y_dim : nat) (rs_dim : dim_arg) (h_dim : nat) (w : MLPParams) (x y : tensor) :
  let enc := Canonical.MLPEncoder_init x_dim y_dim rs_dim h_dim w in
  (forall b n dx b' n' dy : nat,
     shape x = [b; n; dx] -> shape y = [b'; n'; dy] -> (b <> b' \/ n <> n')%nat ->
     Canonical.MLPEncoder_forward enc x y = Err ShapeError)
  /\ ((0 < length (shape x) < 3)%nat -> shape x <> [0%nat] -> shape y <> [] ->
      Canonical.MLPEncoder_forward enc x y = Err IndexError)
  /\ (shape x = [0%nat] -> shape y = [0%nat] ->
      nn.cat_dim2 x y = Ok {| shape := [0%nat]; data := [] |}
      /\ ((x_dim + y_dim <> 0)%nat ->
          Canonical.MLPEncoder_forward enc x y = Err ShapeError)).
Proof.
  intros enc. split; [|split].
  - intros b n dx b' n' dy Hx Hy Hne. unfold Canonical.MLPEncoder_forward, nn.cat_dim2.
    rewrite Hx, Hy.
    destruct (decide _) as [[H|H]|_]; [discriminate..|].
    destruct (decide _) as [H|_]; [discriminate|].
    destruct (decide _) as [H|_]; [discriminate|].
    destruct (decide _) as [(H1 & H2 & _)|_]; [lia|reflexivity].
  - intros [Hr0 Hr] Hx0 Hy0. unfold Canonical.MLPEncoder_forward, nn.cat_dim2.
    destruct (decide _) as [[H|H]|_].
    + rewrite H in Hr0. simpl in Hr0. lia.
    + contradiction.
    + destruct (decide _) as [H|_]; [contradiction|].
      destruct (shape x) as [|? [|? [|? ?]]]; simpl in Hr; try lia; reflexivity.
  - intros Hx Hy.
    assert (Hcat : nn.cat_dim2 x y = Ok {| shape := [0%nat]; data := [] |}).
    { unfold nn.cat_dim2. rewrite Hx, Hy.
      destruct (decide _) as [[H|H]|_]; [discriminate..|].
      destruct (decide _) as [_|H]; [reflexivity|contradiction]. }
    split; [exact Hcat|]. intros Hd.
    unfold Canonical.MLPEncoder_forward. rewrite Hcat.
    cbn [bind enc Canonical.input_to_rs Canonical.MLPEncoder_init Sequential_forward
         Layer_forward].
    unfold nn.Linear_forward at 1.
    cbn [shape last_dim rev app nn.in_features nn.Linear_init].
    destruct (decide _) as [H|_]; [lia|reflexivity].
Qed.

Lemma MLPEncoder_forward_cat_errors_witness :
  Canonical.MLPEncoder_forward (Canonical.MLPEncoder_init 2 1 (DInt 8) 3 zero_params)
    (zeros [4; 5; 2]%nat) (zeros [4; 6; 1]%nat) = Err ShapeError.
Proof.
  apply (proj1 (MLPEncoder_forward_cat_errors 2 1 (DInt 8) 3 zero_params
                  (zeros [4; 5; 2]%nat) (zeros [4; 6; 1]%nat)) 4 5 2 4 6 1)%nat.
  - reflexivity.
  - reflexivity.
  - right. lia.
Defined.

(** A selection of the points of a tensor of rank 3: its shape, its
    well-formedness, its rows. *)
Lemma select_points_rank3 (p : list nat) (x : tensor) (b n d : nat) :
  shape x = [b; n; d] -> wf x -> Forall (fun i => (i < n)%nat) p ->
  shape (permute_points p x) = [b; length p; d]
  /\ wf (permute_points p x)
  /\ chunk (b * length p) d (data (permute_points p x))
     = select (point_index p b n) (chunk (b * n) d (data x)) [].
Proof.
  intros Hx Wx Hlt.
  assert (HD : length (data x) = (b * (n * d))%nat).
  { rewrite Wx, Hx. cbn. lia. }
  assert (Hrows : Forall (fun r => length r = d)
                    (select (point_index p b n) (chunk (b * n) d (data x)) [])).
  { apply select_Forall.
    - apply chunk_rows_length. lia.
    - rewrite chunk_length. apply point_index_bound, Hlt. }
  assert (Hdata : data (permute_points p x)
                  = concat (select (point_index p b n) (chunk (b * n) d (data x)) [])).
  { unfold permute_points. rewrite Hx. cbn [data numel fold_right].
    rewrite Nat.mul_1_r. apply permute_points_rows; assumption. }
  split; [|split].
  - unfold permute_points. rewrite Hx. reflexivity.
  - unfold wf. rewrite Hdata. unfold permute_points. rewrite Hx. cbn [shape].
    rewrite (concat_length_uniform d _ Hrows), select_length, point_index_length.
    cbn. lia.
  - rewrite Hdata. apply chunk_concat; [|exact Hrows].
    rewrite select_length, point_index_length. reflexivity.
Qed.

(** Encoding a selection of the points is selecting from the encoding. *)
Lemma MLPEncoder_select_points
    (x_dim y_dim : nat) (rs_dim : dim_arg) (h_dim : nat) (w : MLPParams)
    (x y : tensor) (p : list nat) (b n dx dy : nat) :
  shape x = [b; n; dx] -> wf x -> shape y = [b; n; dy] -> wf y ->
  Forall (fun i => (i < n)%nat) p ->
  Canonical.MLPEncoder_forward (Canonical.MLPEncoder_init x_dim y_dim rs_dim h_dim w)
    (permute_points p x) (permute_points p y)
  = rmap (permute_points p)
      (Canonical.MLPEncoder_forward (Canonical.MLPEncoder_init x_dim y_dim rs_dim h_dim w) x y).
Proof.
  intros Hx Wx Hy Wy Hlt.
  destruct (select_points_rank3 p x b n dx Hx Wx Hlt) as (Hx' & Wx' & Rx).
  destruct (select_points_rank3 p y b n dy Hy Wy Hlt) as (Hy' & Wy' & Ry).
  destruct (decide (dx + dy = x_dim + y_dim)%nat) as [Hd|Hd].
  2:{ rewrite (MLPEncoder_forward_mismatch _ _ _ _ _ _ _ b (length p) dx dy Hx' Hy' Hd).
      rewrite (MLPEncoder_forward_mismatch _ _ _ _ _ _ _ b n dx dy Hx Hy Hd).
      reflexivity. }
  rewrite (MLPEncoder_forward_points _ _ _ _ _ _ _ b (length p) dx dy Hx' Wx' Hy' Wy' Hd).
  rewrite (MLPEncoder_forward_points _ _ _ _ _ _ _ b n dx dy Hx Wx Hy Wy Hd).
  cbn [rmap bind]. f_equal.
  destruct (cat_points x y b n dx dy Hx Wx Hy Wy) as [Hrows Hnum].
  rewrite numel_pair in Hnum.
  set (rs := Canonical.rs_dim _).
  set (f := mlp_point x_dim y_dim h_dim (numel rs) w).
  rewrite Rx, Ry.
  set (I := point_index p b n).
  set (RX := chunk (b * n) dx (data x)) in *.
  set (RY := chunk (b * n) dy (data y)) in *.
  assert (HI : Forall (fun i => (i < b * n)%nat) I) by apply point_index_bound, Hlt.
  assert (HRX : length RX = (b * n)%nat) by apply chunk_length.
  assert (HRY : length RY = (b * n)%nat) by apply chunk_length.
  unfold permute_points. cbn [shape data app]. f_equal.
  rewrite permute_points_rows.
  - rewrite chunk_concat.
    + rewrite (select_map f I _ []) by (rewrite Hnum; exact HI).
      rewrite (select_zip_with (@app R) I RX RY [] [] []);
        [reflexivity|congruence|rewrite HRX; exact HI].
    + rewrite length_map. exact Hnum.
    + apply Forall_map, Forall_forall. intros r _. apply Linear_row_length.
  - rewrite (concat_length_uniform (numel rs)).
    + rewrite length_map, Hnum. lia.
    + apply Forall_map, Forall_forall. intros r _. apply Linear_row_length.
  - exact Hlt.
Qed.

(** X14.  The encoder commutes with any selection of points along the point
    axis, [x[:, p]] for a list [p] of valid indices: a subset of the points,
    in any order, with or without repetitions. *)
Theorem MLPEncoder_forward_select
    (x_dim y_dim : nat) (rs_dim : dim_arg) (h_dim : nat) (w : MLPParams)
    (x y : tensor) (p : list nat) (b n dx dy : nat) :
  rs_dim <> DTuple [] ->
  shape x = [b; n; dx] -> wf x -> shape y = [b; n; dy] -> wf y ->
  Forall (fun i => (i < n)%nat) p ->
  Canonical.MLPEncoder_forward (Canonical.MLPEncoder_init x_dim y_dim rs_dim h_dim w)
    (permute_points p x) (permute_points p y)
  = rmap (permute_points p)
      (Canonical.MLPEncoder_forward (Canonical.MLPEncoder_init x_dim y_dim rs_dim h_dim w) x y).
Proof. intros _. apply MLPEncoder_select_points. Qed.

Lemma MLPEncoder_forward_select_witness :
  let enc := Canonical.MLPEncoder_init 1 1 (DInt 2) 2 ones_params in
  let x := {| shape := [1; 3; 1]%nat; data := [1; 2; 5] |} in
  let y := {| shape := [1; 3; 1]%nat; data := [3; 4; 6] |} in
  Canonical.MLPEncoder_forward enc (permute_points [2; 2; 0; 2]%nat x)
    (permute_points [2; 2; 0; 2]%nat y)
  = rmap (permute_points [2; 2; 0; 2]%nat) (Canonical.MLPEncoder_forward enc x y).
Proof.
  apply (MLPEncoder_forward_select 1 1 (DInt 2) 2 ones_params
           {| shape := [1; 3; 1]%nat; data := [1; 2; 5] |}
           {| shape := [1; 3; 1]%nat; data := [3; 4; 6] |}
           [2; 2; 0; 2]%nat 1 3 1 1).
  - discriminate.
  - reflexivity.
  - reflexivity.
  - reflexivity.
  - reflexivity.
  - repeat constructor.
Defined.

(** X15.  No point sees another: two pairs of inputs that agree at point [k]
    of every batch element are encoded to tensors that agree at point [k],
    whatever the other points are (or both are refused alike). *)
Theorem MLPEncoder_forward_local
    (x_dim y_dim : nat) (rs_dim : dim_arg) (h_dim : nat) (w : MLPParams)
    (x y x' y' : tensor) (k b n n' dx dy : nat) :
  rs_dim <> DTuple [] ->
  shape x = [b; n; dx] -> wf x -> shape y = [b; n; dy] -> wf y ->
  shape x' = [b; n'; dx] -> wf x' -> shape y' = [b; n'; dy] -> wf y' ->
  (k < n)%nat -> (k < n')%nat ->
  permute_points [k] x = permute_points [k] x' ->
  permute_points [k] y = permute_points [k] y' ->
  let enc := Canonical.MLPEncoder_init x_dim y_dim rs_dim h_dim w in
  rmap (permute_points [k]) (Canonical.MLPEncoder_forward enc x y)
  = rmap (permute_points [k]) (Canonical.MLPEncoder_forward enc x' y').
Proof.
  intros _ Hx Wx Hy Wy Hx' Wx' Hy' Wy' Hk Hk' Ex Ey enc. unfold enc.
  rewrite <- (MLPEncoder_select_points _ _ _ _ _ x y [k] b n dx dy Hx Wx Hy Wy)
    by (repeat constructor; exact Hk).
  rewrite <- (MLPEncoder_select_points _ _ _ _ _ x' y' [k] b n' dx dy Hx' Wx' Hy' Wy')
    by (repeat constructor; exact Hk').
  rewrite Ex, Ey. reflexivity.
Qed.

Lemma MLPEncoder_forward_local_witness :
  let enc := Canonical.MLPEncoder_init 1 1 (DInt 2) 2 ones_params in
  rmap (permute_points [1]%nat)
    (Canonical.MLPEncoder_forward enc {| shape := [1; 2; 1]%nat; data := [1; 2] |}
       {| shape := [1; 2; 1]%nat; data := [3; 4] |})
  = rmap (permute_points [1]%nat)
      (Canonical.MLPEncoder_forward enc {| shape := [1; 3; 1]%nat; data := [7; 2; 9] |}
         {| shape := [1; 3; 1]%nat; data := [8; 4; 0] |}).
Proof.
  apply (MLPEncoder_forward_local 1 1 (DInt 2) 2 ones_params
           {| shape := [1; 2; 1]%nat; data := [1; 2] |}
           {| shape := [1; 2; 1]%nat; data := [3; 4] |}
           {| shape := [1; 3; 1]%nat; data := [7; 2; 9] |}
           {| shape := [1; 3; 1]%nat; data := [8; 4; 0] |}
           1%nat 1%nat 2%nat 3%nat 1%nat 1%nat).
  - discriminate.
  - reflexivity.
  - reflexivity.
  - reflexivity.
  - reflexivity.
  - reflexivity.
  - reflexivity.
  - reflexivity.
  - reflexivity.
  - lia.
  - lia.
  - reflexivity.
  - reflexivity.
Defined.

(** ** The attention encoder *)






(** X18.  The two [squeeze(-1)] calls make the encoder refuse inputs of more
    (or fewer) than one point per batch element when there is a single
    input feature in all ([x_dim + y_dim = 1]), and likewise when [rs_dim]
    has a single entry in all (as the integer [rs_dim = 1] has): the squeezed
    tensor no longer has the size the next module expects. *)
Theorem AttentionEncoder_forward_squeeze_errors
    (values : nn.MultiheadAttention -> tensor -> list R)
    (x_dim y_dim : nat) (rs_dim : dim_arg) (h_dim : nat) (w : MLPParams)
    (enc : Canonical.AttentionEncoder) (x y : tensor) (b n dx dy : nat) :
  Canonical.AttentionEncoder_init x_dim y_dim rs_dim h_dim w = Ok enc ->
  shape x = [b; n; dx] -> wf x -> shape y = [b; n; dy] -> wf y ->
  (dx + dy = x_dim + y_dim)%nat -> (n <> 1)%nat ->
  (x_dim + y_dim = 1)%nat \/ numel (Canonical.rs_dim (Canonical.Attn_super enc)) = 1%nat ->
  Canonical.AttentionEncoder_forward values enc x y = Err ShapeError.
Proof.
  intros Hinit Hx Wx Hy Wy Hd Hn Hone.
  unfold Canonical.AttentionEncoder_init in Hinit.
  remember (Canonical.rs_dim (Canonical.Encoder_init x_dim y_dim rs_dim)) as rs eqn:Hrs.
  destruct (nth_error _ 1) as [heads|]; [|discriminate]. cbn [bind] in Hinit.
  destruct (nn.MultiheadAttention_init _ heads) as [a|] eqn:Ha; [|discriminate].
  cbn [bind] in Hinit. injection Hinit as <-.
  cbn [Canonical.Attn_super] in Hone. rewrite <- Hrs in Hone. clear Hrs.
  assert (Hemb : nn.embed_dim a = numel rs).
  { unfold nn.MultiheadAttention_init in Ha.
    destruct (decide _); [discriminate|]. destruct (decide _); [|discriminate].
    injection Ha as <-. reflexivity. }
  destruct (cat_points x y b n dx dy Hx Wx Hy Wy) as [Hrows Hlen].
  unfold Canonical.AttentionEncoder_forward.
  rewrite (cat_dim2_rank3 x y b n dx dy Hx Hy). cbn [bind Canonical.batch_mlp].
  rewrite Hd in *.
  destruct (decide (x_dim + y_dim = 1)%nat) as [H1|H1].
  - (* the input loses its feature axis *)
    unfold nn.squeeze_last at 1. cbn [shape data]. rewrite last_dim_snoc, H1.
    rewrite removelast_last.
    cbn [Sequential_forward Layer_forward]. unfold nn.Linear_forward at 1.
    cbn [shape last_dim rev app nn.in_features nn.Linear_init].
    destruct (decide _) as [H|_]; [lia|reflexivity].
  - (* the embeddings lose their feature axis *)
    destruct Hone as [H|Hone]; [contradiction|].
    rewrite (squeeze_last_keeps _ [b; n] (x_dim + y_dim)) by (assumption || reflexivity).
    rewrite (linear_stack_forward _ _ _ _ _ _ Hrows Hlen). cbn [bind].
    unfold nn.squeeze_last. cbn [shape data]. rewrite last_dim_snoc, Hone.
    rewrite removelast_last.
    unfold nn.MultiheadAttention_forward. cbn [shape Canonical.attn].
    destruct (decide _) as [H|_]; [lia|reflexivity].
Qed.

Lemma AttentionEncoder_forward_squeeze_errors_witness :
  exists enc : Canonical.AttentionEncoder,
    Canonical.AttentionEncoder_init 2 1 (DInt 1) 3 ones_params = Ok enc
    /\ Canonical.AttentionEncoder_forward (fun _ q => data q) enc
         (zeros [2; 3; 2]%nat) (zeros [2; 3; 1]%nat) = Err ShapeError.
Proof.
  destruct (Canonical.AttentionEncoder_init 2 1 (DInt 1) 3 ones_params)
    as [enc|e] eqn:Hinit; [|vm_compute in Hinit; discriminate].
  exists enc. split; [reflexivity|].
  apply (AttentionEncoder_forward_squeeze_errors (fun _ q => data q) 2 1 (DInt 1) 3
           ones_params enc (zeros [2; 3; 2]%nat) (zeros [2; 3; 1]%nat) 2 3 2 1 Hinit).
  - reflexivity.
  - apply zeros_wf.
  - reflexivity.
  - apply zeros_wf.
  - reflexivity.
  - lia.
  - right. vm_compute in Hinit. injection Hinit as <-. reflexivity.
Defined.

(** ** The classes that cannot encode *)

(** The base class's [forward] is abstract, and the legacy attentive
    encoder, which defines none of its own, inherits it: every call raises
    NotImplementedError, whatever the hyperparameters and the inputs. *)
Theorem AttentiveEncoder_forward_not_implemented
    (x_dim y_dim : nat) (r_dim : dim_arg) (x y : tensor) :
  Legacy.AttentiveEncoder_forward (Legacy.AttentiveEncoder_init x_dim y_dim r_dim) x y
  = Err NotImplementedError
  /\ Legacy.Encoder_forward (Legacy.Encoder_init x_dim y_dim r_dim) x y
     = Err NotImplementedError
  /\ Canonical.Encoder_forward (Canonical.Encoder_init x_dim y_dim r_dim) x y
     = Err NotImplementedError.
Proof. repeat split. Qed.

(** ** Concrete instances of the further properties *)

Lemma q_context0_ok : normal_ok q_context0 1 2.
Proof. repeat split; try reflexivity. repeat constructor; simpl; lra. Qed.

Lemma q_target0_ok : normal_ok q_target0 1 2.
Proof. repeat split; try reflexivity. repeat constructor; simpl; lra. Qed.

Lemma forward_then_reduce_metrics_witness :
  exists (ll kl loss : R) (record : gmap string R),
    forward Normal kl_normal_normal model0 sample0 true = Ok (loss, 1%Z, record)
    /\ reduce_metrics [record]
       = Ok [ {| key := "loss"; value := (- ll + kl) / 1 / ln 2; weight := 1; round := 3 |};
              {| key := "ll"; value := (- ll) / 1 / ln 2; weight := 1; round := 3 |};
              {| key := "kl"; value := kl / 1 / ln 2; weight := 1; round := 3 |} ].
Proof.
  eexists _, _.
  apply (forward_then_reduce_metrics Normal kl_normal_normal model0 sample0 true
           p_y_pred0 (zeros [1; 2]%nat) q_context0 (Some q_target0)).
  - reflexivity.
  - reflexivity.
  - reflexivity.
Defined.

Lemma forward_ignores_reduce_and_r_witness :
  forward Normal kl_normal_normal model0 sample0 true
  = forward Normal kl_normal_normal model0_other_r sample0 false.
Proof.
  apply (forward_ignores_reduce_and_r Normal kl_normal_normal model0 model0_other_r sample0
           true false p_y_pred0 (zeros [1; 2]%nat) (zeros [3]%nat) q_context0 (Some q_target0));
    reflexivity.
Defined.

Lemma forward_target_count_mismatch_witness :
  forward Normal kl_normal_normal model0 sample_three_targets true = Err ShapeMismatch.
Proof.
  apply (forward_target_count_mismatch Normal kl_normal_normal model0 sample_three_targets true
           p_y_pred0 (zeros [1; 2]%nat) q_context0 (Some q_target0) 1 2 2 1 3).
  - reflexivity.
  - reflexivity.
  - reflexivity.
  - lia.
  - lia.
  - lia.
  - lia.
Defined.

Lemma compute_loss_class_out_of_range_witness :
  _compute_loss Normal kl_normal_normal p_y_pred0 y_target_beyond q_target0 q_context0
  = Err ValueError.
Proof.
  apply (compute_loss_class_out_of_range Normal kl_normal_normal p_y_pred0 y_target_beyond
           q_target0 q_context0 1 2 2).
  - reflexivity.
  - reflexivity.
  - reflexivity.
  - reflexivity.
  - lia.
  - lia.
  - lia.
  - apply Exists_cons_tl, Exists_cons_hd. lia.
Defined.

Lemma compute_loss_kl_rank_witness :
  _compute_loss Normal kl_normal_normal p_y_pred0 y_target0 q_flat q_flat = Err IndexError.
Proof.
  apply (compute_loss_kl_rank Normal kl_normal_normal p_y_pred0 y_target0 q_flat q_flat
           {| shape := [2]%nat; data := [kl_entry 0 1 0 1; kl_entry 0 1 0 1] |} 1 2 2).
  - reflexivity.
  - reflexivity.
  - reflexivity.
  - reflexivity.
  - lia.
  - lia.
  - repeat constructor.
  - reflexivity.
  - simpl. lia.
Defined.

Lemma compute_loss_log_likelihood_nonpos_witness :
  exists ll kl : R,
    _compute_loss Normal kl_normal_normal p_y_pred0 y_target0 q_target0 q_context0 = Ok (ll, kl)
    /\ ll <= 0.
Proof.
  apply (compute_loss_log_likelihood_nonpos Normal kl_normal_normal p_y_pred0 y_target0
           q_target0 q_context0 K0 1 2 2 1 2).
  - reflexivity.
  - reflexivity.
  - reflexivity.
  - reflexivity.
  - repeat constructor.
  - lia.
  - lia.
  - reflexivity.
  - reflexivity.
  - reflexivity.
Defined.

Lemma forward_absent_target_normal_witness :
  exists record : gmap string R,
    forward Normal kl_normal_normal model_absent sample0 true
    = Ok (- ll_spec p_y_pred0 y_target0 1 2 2, 1%Z, record)
    /\ record !! "kl" = Some 0
    /\ record !! "loss" = record !! "ll".
Proof.
  apply (forward_absent_target_normal model_absent sample0 true
           p_y_pred0 (zeros [1; 2]%nat) q_context0 1 2 2 1 2).
  - reflexivity.
  - reflexivity.
  - reflexivity.
  - reflexivity.
  - reflexivity.
  - repeat constructor.
  - exact q_context0_ok.
  - lia.
  - lia.
  - lia.
Defined.

Lemma forward_loss_nonneg_witness :
  exists (loss : R) (record : gmap string R),
    forward Normal kl_normal_normal model0 sample0 true = Ok (loss, 1%Z, record)
    /\ 0 <= loss.
Proof.
  apply (forward_loss_nonneg model0 sample0 true
           p_y_pred0 (zeros [1; 2]%nat) q_context0 (Some q_target0) 1 2 2 1 2).
  - reflexivity.
  - reflexivity.
  - reflexivity.
  - reflexivity.
  - reflexivity.
  - repeat constructor.
  - exact q_context0_ok.
  - exact q_target0_ok.
  - lia.
  - lia.
  - lia.
Defined.

(** ** The loss stays the sum of its two terms *)

Lemma total_loss_decomposes (logs : list (gmap string R)) :
  Forall (fun log => get "loss" log = get "ll" log + get "kl" log) logs ->
  total "loss" logs = total "ll" logs + total "kl" logs.
Proof.
  rewrite <- !py_sum_get_total, !py_sum_Rsum.
  induction 1 as [|log logs Hlog _ IH]; simpl; [lra|]. rewrite Hlog, IH. lra.
Qed.

(** X19.  In every record [forward] returns, ["loss"] is the sum of ["ll"]
    and ["kl"]; and [reduce_metrics] keeps it so: over records with this
    property the logged loss is the logged ["ll"] plus the logged ["kl"]. *)
Theorem loss_is_ll_plus_kl
    (Distribution : Type) (kl_divergence : Distribution -> Distribution -> result tensor) :
  (forall (model : Model Distribution) (sample : Sample) (reduce : bool)
          (loss : R) (n : Z) (record : gmap string R),
      forward Distribution kl_divergence model sample reduce = Ok (loss, n, record) ->
      get "loss" record = get "ll" record + get "kl" record)
  /\ (forall logs : list (gmap string R),
        Forall (fun log => get "loss" log = get "ll" log + get "kl" log) logs ->
        0 < total "sample_size" logs ->
        exists c1 c2 c3 : LogScalar,
          reduce_metrics logs = Ok [c1; c2; c3] /\ value c1 = value c2 + value c3).
Proof.
  split.
  - intros model sample reduce loss n record Hf. unfold forward in Hf.
    destruct (model _) as [[[p r] qc] qt].
    destruct (_compute_loss _ _ _ _ _ _) as [[ll kl]|e]; [|discriminate].
    cbn [bind] in Hf. injection Hf as _ _ <-.
    unfold get. simplify_map_eq. reflexivity.
  - intros logs Hall Hpos.
    rewrite (reduce_metrics_value logs) by lra.
    eexists _, _, _. split; [reflexivity|]. cbn [value].
    rewrite (total_loss_decomposes logs Hall).
    pose proof ln2_neq_0. field. split; lra.
Qed.

Lemma loss_is_ll_plus_kl_witness :
  exists c1 c2 c3 : LogScalar,
    reduce_metrics [<["sample_size" := 2]> (<["kl" := 1]> (<["ll" := 3]> (<["loss" := 4]> ∅)))]
    = Ok [c1; c2; c3]
    /\ value c1 = value c2 + value c3.
Proof.
  apply (proj2 (loss_is_ll_plus_kl Normal kl_normal_normal)
           [<["sample_size" := 2]> (<["kl" := 1]> (<["ll" := 3]> (<["loss" := 4]> ∅)))]).
  - repeat constructor. unfold get. simplify_map_eq. lra.
  - unfold total. cbn [map Rsum]. simplify_map_eq. lra.
Defined.
